(** * Heads-up equity simulator: the hand evaluator, the best-of-seven
      selector and the sampling loop of [simulation/equity_simulator.cpp],
      embedded as Rocq functions and verified against their specification.

    Conventions of the embedding.
    - [char] is [ascii]; [int] is [Z] (no computation of the program leaves
      the range of a 32-bit int: rank values are at most 14, counters are
      bounded by the trial count).
    - [std::vector] is [list]; an index read outside the vector, which is
      undefined behaviour in C++, and the exception thrown by
      [std::map::at] are both the failure [None] of the [option] monad.
    - [std::sort] is an insertion sort.  On the data sorted here (integers,
      and (count, value) pairs with pairwise different values) the order is
      total, so every sorting algorithm returns the same vector.
    - [std::map<int,int>] is an association list kept in increasing key
      order, the order in which the program iterates over it.
    - The pseudo random generator is a state threaded through the trials;
      [std::shuffle] is a section variable constrained to return a
      permutation of its argument.
    - A finite [double] is the rational number of [Q] it denotes, and every
      floating-point operation is the exact operation followed by [round],
      the rounding to the nearest [double], which is a section variable.
      The proofs use two of its properties: it is monotone, and it leaves
      the halves [k / 2] with [|k| <= 2^53] unchanged, since these are
      [double]s. *)

From Stdlib Require Import Ascii String.
From Stdlib Require Import List ZArith Bool Lia Permutation Sorted.
From Stdlib Require Import QArith Qround.
Import ListNotations.
Open Scope Z_scope.

(** ** The failure monad *)

Definition bind {A B : Type} (m : option A) (k : A -> option B) : option B :=
  match m with
  | Some a => k a
  | None => None
  end.

Notation "x <- m ;; k" := (bind m (fun x => k))
  (at level 61, m at next level, right associativity).

Fixpoint mapM {A B : Type} (f : A -> option B) (l : list A) : option (list B) :=
  match l with
  | [] => Some []
  | a :: t => b <- f a ;; bs <- mapM f t ;; Some (b :: bs)
  end.

(** ** Cards *)

Record Card : Type := mkCard { rank : ascii; suit : ascii }.

(** [operator==] on cards. *)
Definition card_eqb (a b : Card) : bool :=
  Ascii.eqb (rank a) (rank b) && Ascii.eqb (suit a) (suit b).

Definition RANKS : list ascii := list_ascii_of_string "AKQJT98765432".
Definition SUITS : list ascii := list_ascii_of_string "hdcs".

Definition RANK_VALUES : list (ascii * Z) :=
  [ ("A"%char, 14); ("K"%char, 13); ("Q"%char, 12); ("J"%char, 11);
    ("T"%char, 10); ("9"%char, 9);  ("8"%char, 8);  ("7"%char, 7);
    ("6"%char, 6);  ("5"%char, 5);  ("4"%char, 4);  ("3"%char, 3);
    ("2"%char, 2) ].

(** [std::map::at]: the value bound to the key, or the failure that stands
    for [std::out_of_range]. *)
Fixpoint map_at (m : list (ascii * Z)) (k : ascii) : option Z :=
  match m with
  | [] => None
  | (k', v) :: t => if Ascii.eqb k k' then Some v else map_at t k
  end.

(** ** Sorting *)

Section Sorting.
Context {A : Type}.
(** [before a b] is the comparator of [std::sort]: [a] goes before [b]. *)
Variable before : A -> A -> bool.

Fixpoint insert_by (x : A) (l : list A) : list A :=
  match l with
  | [] => [x]
  | y :: t => if before x y then x :: y :: t else y :: insert_by x t
  end.

Definition sort_by (l : list A) : list A := fold_right insert_by [] l.
End Sorting.

(** [std::unique] on a sorted vector of integers: one element is kept of
    every run of equal ones. *)
Fixpoint unique (l : list Z) : list Z :=
  match l with
  | [] => []
  | x :: t =>
      match t with
      | [] => [x]
      | y :: _ => if x =? y then unique t else x :: unique t
      end
  end.

(** ** The 5-card evaluator *)

Definition HandValue : Type := list Z.

(** Lines 119-128: the scan for five consecutive values.  The state is
    [(isStraight, straightHigh)]; the loop runs over [0 <= i <= size - 5],
    so both reads are inside the vector. *)
Definition straight_scan (uniqueVals : list Z) : bool * Z :=
  if (5 <=? length uniqueVals)%nat then
    fold_left
      (fun (st : bool * Z) (i : nat) =>
         if nth (i + 4) uniqueVals 0 - nth i uniqueVals 0 =? 4
         then (true, nth (i + 4) uniqueVals 0)
         else st)
      (seq 0 (length uniqueVals - 5 + 1))
      (false, 0)
  else (false, 0).

(** [find(uniqueVals.begin(), uniqueVals.end(), v) != uniqueVals.end()]. *)
Definition contains (l : list Z) (v : Z) : bool := existsb (Z.eqb v) l.

(** Lines 129-139: the ace-low straight. *)
Definition wheel_check (uniqueVals : list Z) (st : bool * Z) : bool * Z :=
  if negb (fst st) && contains uniqueVals 14 && contains uniqueVals 2
     && contains uniqueVals 3 && contains uniqueVals 4 && contains uniqueVals 5
  then (true, 5)
  else st.

(** [freq[v]++] on the ordered map. *)
Fixpoint freq_incr (v : Z) (m : list (Z * Z)) : list (Z * Z) :=
  match m with
  | [] => [(v, 1)]
  | (k, c) :: t =>
      if v =? k then (k, c + 1) :: t
      else if v <? k then (v, 1) :: m
      else (k, c) :: freq_incr v t
  end.

(** The comparator of lines 152-156, on (count, value) pairs. *)
Definition count_first (a b : Z * Z) : bool :=
  if fst a =? fst b then snd a >? snd b else fst a >? fst b.

(** Lines 141-156. *)
Definition count_pairs (values : list Z) : list (Z * Z) :=
  let freq := fold_left (fun m v => freq_incr v m) values [] in
  sort_by count_first (map (fun p => (snd p, fst p)) freq).

(** The first element of [values] that satisfies [keep], pushed on
    [handValue] (a loop left by [break]). *)
Definition push_first (keep : Z -> bool) (values : list Z) (handValue : HandValue)
  : HandValue :=
  match find keep values with
  | Some v => handValue ++ [v]
  | None => handValue
  end.

(** Lines 115-211: everything [evaluate5CardHand] computes from the sorted
    values and the flush flag. *)
Definition hand_value_of (values : list Z) (isFlush : bool) : option HandValue :=
  let uniqueVals := unique (sort_by Z.ltb values) in
  let st := wheel_check uniqueVals (straight_scan uniqueVals) in
  let isStraight := fst st in
  let straightHigh := snd st in
  let countPairs := count_pairs values in
  cp0 <- nth_error countPairs 0 ;;
  let cp1 := nth 1 countPairs (0, 0) in
  if isStraight && isFlush then
    Some [9; straightHigh]
  else if fst cp0 =? 4 then
    Some (push_first (fun v => negb (v =? snd cp0)) values [8; snd cp0])
  else if (fst cp0 =? 3) && (1 <? length countPairs)%nat && (fst cp1 >=? 2) then
    Some [7; snd cp0; snd cp1]
  else if isFlush then
    Some (6 :: values)
  else if isStraight then
    Some [5; straightHigh]
  else if fst cp0 =? 3 then
    Some ([4; snd cp0] ++ filter (fun v => negb (v =? snd cp0)) values)
  else if (fst cp0 =? 2) && (2 <=? length countPairs)%nat && (fst cp1 =? 2) then
    Some (push_first (fun v => negb (v =? snd cp0) && negb (v =? snd cp1)) values
            [3; snd cp0; snd cp1])
  else if fst cp0 =? 2 then
    Some ([2; snd cp0] ++ filter (fun v => negb (v =? snd cp0)) values)
  else
    Some (1 :: values).

(** [count(suits.begin(), suits.end(), s)]. *)
Definition count_suit (suits : list ascii) (s : ascii) : Z :=
  Z.of_nat (length (filter (Ascii.eqb s) suits)).

(** Lines 105-113, then [hand_value_of]. *)
Definition evaluate5CardHand (cards : list Card) : option HandValue :=
  values <- mapM (fun c => map_at RANK_VALUES (rank c)) cards ;;
  let suits := map suit cards in
  let values := sort_by Z.gtb values in
  s0 <- nth_error suits 0 ;;
  let isFlush := count_suit suits s0 =? 5 in
  hand_value_of values isFlush.

(** [std::lexicographical_compare]. *)
Fixpoint lexicographical_compare (a b : list Z) : bool :=
  match a, b with
  | _, [] => false
  | [], _ :: _ => true
  | x :: a', y :: b' =>
      if x <? y then true
      else if y <? x then false
      else lexicographical_compare a' b'
  end.

(** Lines 215-217. *)
Definition isBetterHand (h1 h2 : HandValue) : bool :=
  lexicographical_compare h2 h1.

(** ** The best hand of seven cards *)

(** [for (int x = lo; x < hi; x++) body], on a state that the body may fail
    to produce. *)
Definition for_range {S : Type} (lo hi : nat) (body : nat -> S -> option S)
    (s : S) : option S :=
  fold_left (fun acc x => s' <- acc ;; body x s') (seq lo (hi - lo)) (Some s).

(** The loop nest of lines 226-230. *)
Definition loops5 {S : Type}
    (body : nat -> nat -> nat -> nat -> nat -> S -> option S) : S -> option S :=
  for_range 0 3 (fun i =>
    for_range (i + 1) 4 (fun j =>
      for_range (j + 1) 5 (fun k =>
        for_range (k + 1) 6 (fun l =>
          for_range (l + 1) 7 (fun m => body i j k l m))))).

(** The two local variables the loop body updates. *)
Record BestState : Type := mkBest { bestVal : HandValue; first : bool }.

(** Lines 234-237: the update of the two variables on the evaluated hand. *)
Definition pick_better (st : BestState) (val : HandValue) : BestState :=
  if first st || isBetterHand val (bestVal st) then mkBest val false else st.

(** Lines 231-237. *)
Definition best_step (sevenCards : list Card) (i j k l m : nat) (st : BestState)
  : option BestState :=
  ci <- nth_error sevenCards i ;;
  cj <- nth_error sevenCards j ;;
  ck <- nth_error sevenCards k ;;
  cl <- nth_error sevenCards l ;;
  cm <- nth_error sevenCards m ;;
  let five := [ci; cj; ck; cl; cm] in
  val <- evaluate5CardHand five ;;
  Some (pick_better st val).

(** Lines 219-244. *)
Definition bestHandValue (sevenCards : list Card) : option HandValue :=
  st <- loops5 (best_step sevenCards) (mkBest [] true) ;;
  Some (bestVal st).

(** The index tuples the loop nest visits, in the order of the visits. *)
Definition visited_indices : option (list (list nat)) :=
  loops5 (fun i j k l m acc => Some (acc ++ [[i; j; k; l; m]])) [].

(** ** Parsing the hero hand *)

(** [tolower] of the C locale. *)
Definition tolower (c : ascii) : ascii :=
  let n := nat_of_ascii c in
  if ((65 <=? n) && (n <=? 90))%nat then ascii_of_nat (n + 32) else c.

(** Lines 54-70. *)
Definition parseHand (handStr : string) : list Card :=
  match handStr with
  | String r1 (String r2 EmptyString) =>
      [mkCard r1 "h"; mkCard r2 "d"]
  | String r1 (String r2 (String style EmptyString)) =>
      if Ascii.eqb (tolower style) "s"
      then [mkCard r1 "h"; mkCard r2 "h"]
      else [mkCard r1 "h"; mkCard r2 "d"]
  | _ => []
  end.

(** ** The deck *)

(** Lines 75-86: the two loops push every card that is not excluded. *)
Definition buildDeck (exclude : list Card) : list Card :=
  flat_map
    (fun r =>
       flat_map
         (fun s =>
            let c := mkCard r s in
            if existsb (fun e => card_eqb e c) exclude then [] else [c])
         SUITS)
    RANKS.

(** ** The simulator *)

Record EquitySimulator : Type := mkSim {
  heroHandStr : string;
  simulations : Z;
  heroHand : list Card
}.

(** The constructor. *)
Definition newEquitySimulator (heroHandStr : string) (simulations : Z)
  : EquitySimulator :=
  mkSim heroHandStr simulations (parseHand heroHandStr).

Record Tally : Type := mkTally { wins : Z; ties : Z; losses : Z }.

(** A [double]: a number, or the NaN that [0.0 / 0.0] yields. *)
Inductive double : Type :=
| Finite (q : Q)
| NaN.

(** The conversion of an [int] to [double], which is exact. *)
Definition double_of_int (z : Z) : Q := inject_Z z.

(** The largest [int]. *)
Definition INT_MAX : Z := 2147483647.

(** Lines 270-274: the opponent's two cards and the five board cards.  Each
    read outside the shuffled deck is a failure. *)
Definition deal (deck : list Card) : option (list Card * list Card) :=
  d0 <- nth_error deck 0 ;;
  d1 <- nth_error deck 1 ;;
  let oppHand := [d0; d1] in
  let remaining := skipn 2 deck in
  if (length remaining <? 5)%nat then None
  else
    let board := firstn 5 remaining in
    Some (oppHand, board).

(** [operator==] on [vector<int>]. *)
Fixpoint vector_eqb (a b : list Z) : bool :=
  match a, b with
  | [], [] => true
  | x :: a', y :: b' => (x =? y) && vector_eqb a' b'
  | _, _ => false
  end.

(** [operator>] on [vector<int>]: [a > b] is [b < a], lexicographic. *)
Definition vector_gtb (a b : list Z) : bool := lexicographical_compare b a.

(** Lines 275-289: one trial on a shuffled deck. *)
Definition trial (heroHand deck : list Card) (t : Tally) : option Tally :=
  dealt <- deal deck ;;
  let oppHand := fst dealt in
  let board := snd dealt in
  let heroSeven := heroHand ++ board in
  heroVal <- bestHandValue heroSeven ;;
  let oppSeven := oppHand ++ board in
  oppVal <- bestHandValue oppSeven ;;
  if vector_gtb heroVal oppVal then
    Some (mkTally (wins t + 1) (ties t) (losses t))
  else if vector_eqb heroVal oppVal then
    Some (mkTally (wins t) (ties t + 1) (losses t))
  else
    Some (mkTally (wins t) (ties t) (losses t + 1)).

Section Simulate.
(** The state of the generator [mt19937], and [std::shuffle] on it. *)
Context {Gen : Type}.
Variable shuffle : Gen -> list Card -> list Card * Gen.

(** The loop of lines 264-290, [n] iterations from the generator state [g]
    and the tallies [t]. *)
Fixpoint trials (n : nat) (heroHand : list Card) (g : Gen) (t : Tally)
  : option (Tally * Gen) :=
  match n with
  | O => Some (t, g)
  | S n' =>
      let deck := buildDeck heroHand in
      let shuffled := shuffle g deck in
      t' <- trial heroHand (fst shuffled) t ;;
      trials n' heroHand (snd shuffled) t'
  end.

(** Rounding to the nearest [double], and the operations on [double]. *)
Variable round : Q -> Q.

Definition double_add (a b : Q) : Q := round (a + b).
Definition double_mul (a b : Q) : Q := round (a * b).
Definition double_div (a b : Q) : Q := round (a / b).

(** [simulate], from the seed [rd()] of the generator. *)
Definition simulate (sim : EquitySimulator) (seed : Gen) : option double :=
  r <- trials (Z.to_nat (simulations sim)) (heroHand sim) seed (mkTally 0 0 0) ;;
  let t := fst r in
  let total := wins t + ties t + losses t in
  if total =? 0 then Some NaN
  else
    let equity :=
      double_div
        (double_add (double_of_int (wins t))
           (double_mul (1 # 2) (double_of_int (ties t))))
        (double_of_int total) in
    Some (Finite equity).

(** The shuffled decks of [n] successive trials. *)
Fixpoint shuffled_decks (n : nat) (heroHand : list Card) (g : Gen)
  : list (list Card) :=
  match n with
  | O => []
  | S n' =>
      let shuffled := shuffle g (buildDeck heroHand) in
      fst shuffled :: shuffled_decks n' heroHand (snd shuffled)
  end.
End Simulate.

(** ** Specification vocabulary *)

(** A card of the 52-card universe. *)
Definition valid_card (c : Card) : Prop :=
  In (rank c) RANKS /\ In (suit c) SUITS.

(** [n] cards of the universe, no card twice. *)
Definition valid_hand (n : nat) (h : list Card) : Prop :=
  length h = n /\ NoDup h /\ Forall valid_card h.

(** The face value of a rank character (A high); 0 for a character that is
    no rank. *)
Definition value_of_rank (r : ascii) : Z :=
  match map_at RANK_VALUES r with
  | Some v => v
  | None => 0
  end.

Definition rank_value (c : Card) : Z := value_of_rank (rank c).

Definition face_values : list Z := [14; 13; 12; 11; 10; 9; 8; 7; 6; 5; 4; 3; 2].

(** Non-increasing vectors. *)
Definition descending : list Z -> Prop := StronglySorted Z.ge.

(** The lexicographic order on tuples: a strict prefix is smaller. *)
Inductive lex_lt : list Z -> list Z -> Prop :=
| lex_lt_nil : forall y b, lex_lt [] (y :: b)
| lex_lt_head : forall x y a b, x < y -> lex_lt (x :: a) (y :: b)
| lex_lt_tail : forall x a b, lex_lt a b -> lex_lt (x :: a) (x :: b).

(** The sublists of [k] elements, in the order of the list. *)
Fixpoint combs {A : Type} (k : nat) (l : list A) : list (list A) :=
  match k with
  | O => [[]]
  | S k' =>
      match l with
      | [] => []
      | x :: t => map (cons x) (combs k' t) ++ combs k t
      end
  end.

(** How many times the value [v] occurs in [values]. *)
Definition occurrences (values : list Z) (v : Z) : nat :=
  length (filter (Z.eqb v) values).

(** The hand categories of poker, weakest first. *)
Inductive Category : Type :=
| HighCard | OnePair | TwoPair | ThreeOfAKind | Straight
| Flush | FullHouse | FourOfAKind | StraightFlush.

Definition category_number (c : Category) : Z :=
  match c with
  | HighCard => 1 | OnePair => 2 | TwoPair => 3 | ThreeOfAKind => 4
  | Straight => 5 | Flush => 6 | FullHouse => 7 | FourOfAKind => 8
  | StraightFlush => 9
  end.

(** The categories as the rules of the game define them, on the number of
    cards [occ v] the hand holds of every face value [v]. *)
Section Categories.
Variable occ : Z -> nat.

(** Some face value is held exactly [n] times. *)
Definition has_group (n : nat) : bool :=
  existsb (fun v => (occ v =? n)%nat) face_values.

(** One face value is held [n] times and another one [m] times. *)
Definition has_groups (n m : nat) : bool :=
  existsb
    (fun v =>
       (occ v =? n)%nat
       && existsb (fun w => negb (v =? w) && (occ w =? m)%nat) face_values)
    face_values.

(** The hand holds the value [v], the ace also standing for 1. *)
Definition holds (v : Z) : bool :=
  Nat.ltb 0 (occ (if v =? 1 then 14 else v)).

(** Five consecutive values, from [high - 4] to [high]. *)
Definition run_to (high : Z) : bool :=
  forallb holds [high - 4; high - 3; high - 2; high - 1; high].

Definition five_in_a_row : bool :=
  existsb run_to [5; 6; 7; 8; 9; 10; 11; 12; 13; 14].

Definition category_of (flush : bool) : Category :=
  if five_in_a_row && flush then StraightFlush
  else if has_group 4 then FourOfAKind
  else if has_groups 3 2 then FullHouse
  else if flush then Flush
  else if five_in_a_row then Straight
  else if has_group 3 then ThreeOfAKind
  else if has_groups 2 2 then TwoPair
  else if has_group 2 then OnePair
  else HighCard.
End Categories.

(** All five cards share one suit. *)
Definition all_same_suit (h : list Card) : bool :=
  forallb (fun c => forallb (fun c' => Ascii.eqb (suit c) (suit c')) h) h.

(** The category of a five-card hand. *)
Definition poker_category (h : list Card) : Category :=
  category_of (occurrences (map rank_value h)) (all_same_suit h).

(** The number of elements the evaluator gives a value of each category. *)
Definition value_length (category : Z) : nat :=
  if (category =? 9) || (category =? 5) then 2
  else if (category =? 8) || (category =? 7) then 3
  else if (category =? 4) || (category =? 3) then 4
  else if category =? 2 then 5
  else 6.

(** The outcome of a trial. *)
Inductive Outcome : Type := Win | Tie | Loss.

(** ** Exhaustive checks over the sorted value vectors *)

(** The non-increasing vectors of [n] face values, none above [top]. *)
Fixpoint desc_lists (n : nat) (top : Z) : list (list Z) :=
  match n with
  | O => [[]]
  | S n' =>
      flat_map (fun a => map (cons a) (desc_lists n' a))
        (filter (fun a => a <=? top) face_values)
  end.

(** The sorted values of all five-card hands. *)
Definition all_desc5 : list (list Z) := desc_lists 5 14.

(** [P] holds of every sorted value vector, with and without a flush. *)
Definition check_all (P : list Z -> bool -> bool) : bool :=
  forallb (fun l => P l true && P l false) all_desc5.

(** The evaluation succeeded with the category [c] in front. *)
Definition head_is (v : option HandValue) (c : Z) : bool :=
  match v with
  | Some (x :: _) => x =? c
  | _ => false
  end.

(** The evaluator puts the number of the poker category in front. *)
Definition category_agrees (values : list Z) (isFlush : bool) : bool :=
  head_is (hand_value_of values isFlush)
    (category_number (category_of (occurrences values) isFlush)).

(** The category is one of 1..9 and decides the length of the value. *)
Definition length_agrees (values : list Z) (isFlush : bool) : bool :=
  match hand_value_of values isFlush with
  | Some (c :: t) =>
      (1 <=? c) && (c <=? 9) && (length (c :: t) =? value_length c)%nat
  | _ => false
  end.

(** The ranks of the wheel and of the six-high straight. *)
Definition wheel_ranks : list ascii := ["A"; "2"; "3"; "4"; "5"]%char.
Definition six_high_ranks : list ascii := ["2"; "3"; "4"; "5"; "6"]%char.

(** The one-pair hands: the pair [p] and three kickers, highest first. *)
Definition one_pair (h : list Card) (p k1 k2 k3 : Z) : Prop :=
  valid_hand 5 h /\
  Permutation (map rank_value h) [p; p; k1; k2; k3] /\
  k3 < k2 < k1 /\ p <> k1 /\ p <> k2 /\ p <> k3.

(** Equality of two results of the evaluator. *)
Definition value_eqb (a b : option HandValue) : bool :=
  match a, b with
  | Some x, Some y => vector_eqb x y
  | None, None => true
  | _, _ => false
  end.

(** A pair [p] with the kickers [k1 > k2 > k3] is valued [2; p; k1; k2; k3]. *)
Definition pair_agrees (p k1 k2 k3 : Z) : bool :=
  if (k3 <? k2) && (k2 <? k1)
     && negb (p =? k1) && negb (p =? k2) && negb (p =? k3)
  then value_eqb (hand_value_of (sort_by Z.gtb [p; p; k1; k2; k3]) false)
         (Some [2; p; k1; k2; k3])
  else true.

Definition check_pairs : bool :=
  forallb (fun p =>
  forallb (fun k1 =>
  forallb (fun k2 =>
  forallb (fun k3 => pair_agrees p k1 k2 k3) face_values) face_values)
    face_values) face_values.

(** Decision procedures for [valid_card] and [valid_hand]. *)
Definition valid_cardb (c : Card) : bool :=
  existsb (Ascii.eqb (rank c)) RANKS && existsb (Ascii.eqb (suit c)) SUITS.

Fixpoint nodupb (h : list Card) : bool :=
  match h with
  | [] => true
  | c :: t => negb (existsb (card_eqb c) t) && nodupb t
  end.

Definition valid_handb (n : nat) (h : list Card) : bool :=
  (length h =? n)%nat && nodupb h && forallb valid_cardb h.

(** The choices of 5 indices among 0..6, each as an increasing tuple. *)
Definition index_combinations : list (list nat) := combs 5 (seq 0 7).

(** The tuples [i < j < k < l < m < 7]. *)
Definition increasing5 (t : list nat) : Prop :=
  exists i j k l m,
    t = [i; j; k; l; m] /\ (i < j /\ j < k /\ k < l /\ l < m /\ m < 7)%nat.

Fixpoint nat_list_eqb (a b : list nat) : bool :=
  match a, b with
  | [], [] => true
  | x :: a', y :: b' => (x =? y)%nat && nat_list_eqb a' b'
  | _, _ => false
  end.

(** Every increasing tuple of indices below 7 is among [index_combinations]. *)
Definition covers_all : bool :=
  forallb (fun i =>
  forallb (fun j =>
  forallb (fun k =>
  forallb (fun l =>
  forallb (fun m =>
    if ((i <? j) && (j <? k) && (k <? l) && (l <? m))%nat
    then existsb (nat_list_eqb [i; j; k; l; m]) index_combinations
    else true)
    (seq 0 7)) (seq 0 7)) (seq 0 7)) (seq 0 7)) (seq 0 7).

(** The cards of a hand at the indices of a tuple. *)
Definition cards_at (cards : list Card) (t : list nat) : option (list Card) :=
  mapM (nth_error cards) t.

(** The steps of a loop, run one after the other. *)
Definition run_all {S : Type} (fs : list (S -> option S)) (s : S) : option S :=
  fold_left (fun acc f => s' <- acc ;; f s') fs (Some s).

(** A loop body applied to a tuple of five indices. *)
Definition apply5 {S : Type}
    (body : nat -> nat -> nat -> nat -> nat -> S -> option S) (t : list nat)
  : S -> option S :=
  match t with
  | [i; j; k; l; m] => body i j k l m
  | _ => fun _ => None
  end.

(** The 52 cards, in the order of the two loops of [buildDeck]. *)
Definition all_cards : list Card :=
  flat_map (fun r => map (mkCard r) SUITS) RANKS.

(** The test of line 81: the card is not in the exclusion list. *)
Definition not_excluded (exclude : list Card) (c : Card) : bool :=
  negb (existsb (fun e => card_eqb e c) exclude).

Definition outcome_eqb (a b : Outcome) : bool :=
  match a, b with
  | Win, Win | Tie, Tie | Loss, Loss => true
  | _, _ => false
  end.

(** How many trials ended with the outcome [o]. *)
Definition count_outcome (o : Outcome) (outcomes : list Outcome) : Z :=
  Z.of_nat (length (filter (outcome_eqb o) outcomes)).

(** The outcome of the trial played on a shuffled deck: a win when the
    hero's best value is strictly greater than the opponent's, a tie when the
    two values are equal, a loss otherwise. *)
Definition trial_outcome (heroHand deck : list Card) (o : Outcome) : Prop :=
  exists oppHand board heroVal oppVal,
    deal deck = Some (oppHand, board) /\
    bestHandValue (heroHand ++ board) = Some heroVal /\
    bestHandValue (oppHand ++ board) = Some oppVal /\
    match o with
    | Win => lex_lt oppVal heroVal
    | Tie => heroVal = oppVal
    | Loss => ~ lex_lt oppVal heroVal /\ heroVal <> oppVal
    end.

(** Lines 284-289: the tally after the comparison of the two best values. *)
Definition count_trial (t : Tally) (heroVal oppVal : HandValue) : Tally :=
  if vector_gtb heroVal oppVal then mkTally (wins t + 1) (ties t) (losses t)
  else if vector_eqb heroVal oppVal then mkTally (wins t) (ties t + 1) (losses t)
  else mkTally (wins t) (ties t) (losses t + 1).

(** Lines 291-293: the equity that [simulate] computes from the final tally,
    with the rounding [round] of the [double] operations. *)
Definition equity_of_tally (round : Q -> Q) (t : Tally) : double :=
  let total := wins t + ties t + losses t in
  if total =? 0 then NaN
  else
    Finite
      (double_div round
         (double_add round (double_of_int (wins t))
            (double_mul round (1 # 2) (double_of_int (ties t))))
         (double_of_int total)).

(** The tally after a trial of outcome [o]. *)
Definition record_outcome (t : Tally) (o : Outcome) : Tally :=
  match o with
  | Win => mkTally (wins t + 1) (ties t) (losses t)
  | Tie => mkTally (wins t) (ties t + 1) (losses t)
  | Loss => mkTally (wins t) (ties t) (losses t + 1)
  end.

(** The equity of a tally of [n] trials. *)
Definition equity_of (outcomes : list Outcome) (n : Z) : Q :=
  (inject_Z (count_outcome Win outcomes)
   + (1 # 2) * inject_Z (count_outcome Tie outcomes)) / inject_Z n.

(** The hand notation of the specification: two rank characters, or two
    rank characters and the style character [s] or [o]. *)
Definition recognized_rank (r : ascii) : bool := existsb (Ascii.eqb r) RANKS.

Definition recognized_style (c : ascii) : bool :=
  Ascii.eqb c "s" || Ascii.eqb c "o".

Definition well_formed (handStr : string) : bool :=
  match handStr with
  | String r1 (String r2 EmptyString) =>
      recognized_rank r1 && recognized_rank r2
  | String r1 (String r2 (String style EmptyString)) =>
      recognized_rank r1 && recognized_rank r2 && recognized_style style
  | _ => false
  end.

(** A pair written with the suited style names one card twice. *)
Definition suited_pair (handStr : string) : bool :=
  match handStr with
  | String r1 (String r2 (String style EmptyString)) =>
      Ascii.eqb r1 r2 && Ascii.eqb (tolower style) "s"
  | _ => false
  end.

(** What the specification promises of parsing, an empty hand standing for
    the error report: malformed notation is refused, and every hand that is
    handed on is two valid, different cards. *)
Definition parse_contract (handStr : string) : Prop :=
  (well_formed handStr = false -> parseHand handStr = []) /\
  (parseHand handStr <> [] -> valid_hand 2 (parseHand handStr)).

(** A shuffle for the examples: the deck is cut at the position [g]. *)
Definition cut_shuffle (g : nat) (l : list Card) : list Card * nat :=
  (skipn g l ++ firstn g l, (g + 7)%nat).

(** A rounding for the examples: to the nearest multiple of [2^-60]. *)
Definition grid : positive := 1152921504606846976.

Definition round_to_grid (q : Q) : Q :=
  Qfloor (q * inject_Z (Z.pos grid) + (1 # 2)) # grid.

(** ** Notation for test hands *)

(** ["AhKd..."]: the cards named by rank and suit characters. *)
Definition hand (s : string) : list Card :=
  (fix go (l : list ascii) : list Card :=
     match l with
     | r :: s :: t => mkCard r s :: go t
     | _ => []
     end) (list_ascii_of_string s).

(** ** The runs of one hand in [main] *)

(** Lines 307-310. *)
Definition testHands : list string :=
  [ "AA"; "AKo"; "AQo"; "AJo"; "ATo"; "A9o"; "A8o"; "A7o"; "A6o"; "A5o";
    "A4o"; "A3o"; "A2o";
    "AKs"; "AQs"; "AJs"; "ATs"; "A9s"; "A8s"; "A7s"; "A6s"; "A5s"; "A4s";
    "A3s"; "A2s" ]%string.

(** Lines 313-314. *)
Definition numRuns : Z := 10.
Definition simsPerRun : Z := 25000.

Section Main.
Context {Gen : Type}.
Variable shuffle : Gen -> list Card -> list Card * Gen.
Variable round : Q -> Q.

(** [totalEquity += eq]: a NaN operand gives NaN. *)
Definition double_accumulate (total eq : double) : double :=
  match total, eq with
  | Finite x, Finite y => Finite (double_add round x y)
  | _, _ => NaN
  end.

(** [totalEquity / numRuns], the divisor being the constant 10. *)
Definition double_average (total : double) : double :=
  match total with
  | Finite x => Finite (double_div round x (double_of_int numRuns))
  | NaN => NaN
  end.

(** The loop of lines 325-330, [n] iterations from the run number [i]; the
    run [i] draws the seed [seeds i] from [random_device].  An exception of
    [simulate] ends the program. *)
Fixpoint runs (n : nat) (hand : string) (seeds : nat -> Gen) (i : nat)
    (runResults : list double) (totalEquity : double)
  : option (list double * double) :=
  match n with
  | O => Some (runResults, totalEquity)
  | S n' =>
      let sim := newEquitySimulator hand simsPerRun in
      eq <- simulate shuffle round sim (seeds i) ;;
      runs n' hand seeds (S i) (runResults ++ [eq])
        (double_accumulate totalEquity eq)
  end.

(** Lines 323-331: the results of the runs of one hand, and their average. *)
Definition hand_results (hand : string) (seeds : nat -> Gen)
  : option (list double * double) :=
  r <- runs (Z.to_nat numRuns) hand seeds 0 [] (Finite 0) ;;
  let avgEquity := double_average (snd r) in
  Some (fst r, avgEquity).
End Main.

(** A [double] between 0 and 1. *)
Definition in_unit_interval (d : double) : Prop :=
  match d with
  | Finite q => (0 <= q)%Q /\ (q <= 1)%Q
  | NaN => False
  end.

(** ** Checks of the value of each category *)

(** Two, and three, face values. *)
Definition check_faces2 (P : Z -> Z -> bool) : bool :=
  forallb (fun a => forallb (fun b => P a b) face_values) face_values.

Definition check_faces3 (P : Z -> Z -> Z -> bool) : bool :=
  forallb (fun a => check_faces2 (P a)) face_values.

(** The evaluator gives [expected] for the values [l], with the flush flag
    [isFlush]. *)
Definition gives (l : list Z) (isFlush : bool) (expected : HandValue) : bool :=
  value_eqb (hand_value_of (sort_by Z.gtb l) isFlush) (Some expected).

Definition quads_agree (q k : Z) : bool :=
  if negb (q =? k)
  then gives [q; q; q; q; k] true [8; q; k]
       && gives [q; q; q; q; k] false [8; q; k]
  else true.

Definition full_house_agrees (t p : Z) : bool :=
  if negb (t =? p)
  then gives [t; t; t; p; p] true [7; t; p]
       && gives [t; t; t; p; p] false [7; t; p]
  else true.

Definition trips_agree (t k1 k2 : Z) : bool :=
  if (k2 <? k1) && negb (t =? k1) && negb (t =? k2)
  then gives [t; t; t; k1; k2] false [4; t; k1; k2]
  else true.

Definition two_pair_agrees (p q k : Z) : bool :=
  if (q <? p) && negb (k =? p) && negb (k =? q)
  then gives [p; p; q; q; k] false [3; p; q; k]
  else true.

(** No value occurs twice in a non-increasing vector. *)
Fixpoint strictly_descending (l : list Z) : bool :=
  match l with
  | x :: ((y :: _) as t) => (y <? x) && strictly_descending t
  | _ => true
  end.

Definition no_pair_agrees (l : list Z) (isFlush : bool) : bool :=
  if strictly_descending l && negb (five_in_a_row (occurrences l))
  then value_eqb (hand_value_of l isFlush)
         (Some ((if isFlush then 6 else 1) :: l))
  else true.

Definition straight_agrees (low : Z) : bool :=
  let l := [low + 4; low + 3; low + 2; low + 1; low] in
  gives l true [9; low + 4] && gives l false [5; low + 4].

(** Every tiebreak of the value is one of the values of the hand. *)
Definition tiebreaks_agree (l : list Z) (isFlush : bool) : bool :=
  match hand_value_of l isFlush with
  | Some (c :: t) => forallb (fun v => existsb (Z.eqb v) l) t
  | _ => false
  end.

(** * Proofs *)

(** ** The failure monad and the rank table *)

Lemma mapM_total {A B : Type} (f : A -> option B) (g : A -> B) (l : list A) :
  Forall (fun a => f a = Some (g a)) l -> mapM f l = Some (map g l).
Proof.
  induction 1 as [|a t Ha _ IH]; simpl; [reflexivity|].
  now rewrite Ha, IH.
Qed.

Lemma rank_at (r : ascii) :
  In r RANKS ->
  exists v, map_at RANK_VALUES r = Some v /\ 2 <= v <= 14.
Proof.
  cbn. intros H.
  repeat (destruct H as [<- | H]; [eexists; split; [reflexivity | lia] |]).
  destruct H.
Qed.

Lemma rank_value_at (c : Card) :
  In (rank c) RANKS -> map_at RANK_VALUES (rank c) = Some (rank_value c).
Proof.
  intros H. destruct (rank_at _ H) as (v & Hv & _).
  unfold rank_value, value_of_rank. now rewrite Hv.
Qed.

Lemma rank_value_range (c : Card) :
  In (rank c) RANKS -> 2 <= rank_value c <= 14.
Proof.
  intros H. destruct (rank_at _ H) as (v & Hv & Hr).
  unfold rank_value, value_of_rank. now rewrite Hv.
Qed.

Lemma valid_ranks (n : nat) (h : list Card) :
  valid_hand n h -> Forall (fun c => In (rank c) RANKS) h.
Proof.
  intros (_ & _ & H). eapply Forall_impl; [|exact H]. now intros c [Hr _].
Qed.

Lemma values_of_valid (h : list Card) :
  Forall (fun c => In (rank c) RANKS) h ->
  mapM (fun c => map_at RANK_VALUES (rank c)) h = Some (map rank_value h).
Proof.
  intros H. apply mapM_total.
  eapply Forall_impl; [|exact H]. intros c. apply rank_value_at.
Qed.

(** ** Sorting *)

Section SortFacts.
Context {A : Type}.
Variable before : A -> A -> bool.

Lemma insert_by_perm (x : A) (l : list A) :
  Permutation (x :: l) (insert_by before x l).
Proof.
  induction l as [|y t IH]; simpl; [reflexivity|].
  destruct (before x y); [reflexivity|].
  rewrite perm_swap. now constructor.
Qed.

Lemma sort_by_perm (l : list A) : Permutation l (sort_by before l).
Proof.
  induction l as [|x t IH]; simpl; [constructor|].
  rewrite <- insert_by_perm. now constructor.
Qed.

Lemma sort_by_length (l : list A) : length (sort_by before l) = length l.
Proof. symmetry. apply Permutation_length, sort_by_perm. Qed.
End SortFacts.

Lemma insert_descending (x : Z) (l : list Z) :
  descending l -> descending (insert_by Z.gtb x l).
Proof.
  unfold descending.
  induction 1 as [|y t Ht IH Hy]; simpl.
  - repeat constructor.
  - destruct (Z.gtb_spec x y).
    + constructor; [now constructor|].
      constructor; [lia|].
      eapply Forall_impl; [|exact Hy]. intros; lia.
    + constructor; [exact IH|].
      eapply Permutation_Forall; [apply insert_by_perm|].
      constructor; [lia | exact Hy].
Qed.

Lemma sort_descending (l : list Z) : descending (sort_by Z.gtb l).
Proof.
  induction l as [|x t IH]; simpl.
  - constructor.
  - now apply insert_descending.
Qed.

Lemma descending_unique (l l' : list Z) :
  descending l -> descending l' -> Permutation l l' -> l = l'.
Proof.
  unfold descending. intros Hl. revert l'.
  induction Hl as [|a t Ht IH Ha]; intros l' Hl' HP.
  - now apply Permutation_nil in HP.
  - destruct Hl' as [|b t' Ht' Hb].
    + symmetry in HP. now apply Permutation_nil in HP.
    + assert (a = b) as ->.
      { assert (In a (b :: t')) as [?|Hin]
          by (eapply Permutation_in; [exact HP | now left]); [lia|].
        assert (In b (a :: t)) as [?|Hin']
          by (eapply Permutation_in; [symmetry; exact HP | now left]); [lia|].
        rewrite Forall_forall in Ha, Hb.
        specialize (Ha _ Hin'). specialize (Hb _ Hin). lia. }
      f_equal. apply IH; [exact Ht'|].
      now apply Permutation_cons_inv in HP.
Qed.

(** The sorted vector depends on the values only, not on their order. *)
Lemma sort_of_perm (l l' : list Z) :
  Permutation l l' -> sort_by Z.gtb l = sort_by Z.gtb l'.
Proof.
  intros HP. apply descending_unique; try apply sort_descending.
  rewrite <- !sort_by_perm. exact HP.
Qed.

(** ** The evaluator factors through the sorted values and the flush flag *)

Lemma five_cards (h : list Card) :
  length h = 5%nat -> exists a b c d e, h = [a; b; c; d; e].
Proof.
  destruct h as [|a [|b [|c [|d [|e [|f t]]]]]]; try discriminate.
  intros _. now exists a, b, c, d, e.
Qed.

Lemma all_same_suit_iff (h : list Card) :
  all_same_suit h = true <->
  forall c c', In c h -> In c' h -> suit c = suit c'.
Proof.
  unfold all_same_suit. rewrite forallb_forall. split.
  - intros H c c' Hc Hc'. specialize (H c Hc).
    rewrite forallb_forall in H. now apply Ascii.eqb_eq, H.
  - intros H c Hc. apply forallb_forall. intros c' Hc'.
    now apply Ascii.eqb_eq, H.
Qed.

Lemma count_suit_full (suits : list ascii) (s : ascii) :
  (count_suit suits s =? Z.of_nat (length suits)) = forallb (Ascii.eqb s) suits.
Proof.
  unfold count_suit.
  induction suits as [|x t IH]; cbn [filter forallb length]; [reflexivity|].
  destruct (Ascii.eqb s x); cbn [andb length].
  - rewrite <- IH. apply eq_true_iff_eq. rewrite !Z.eqb_eq. lia.
  - apply Z.eqb_neq. pose proof (filter_length_le (Ascii.eqb s) t). lia.
Qed.

(** The flag [isFlush] of the code says that the five suits are equal. *)
Lemma isFlush_spec (h : list Card) :
  length h = 5%nat ->
  exists s0, nth_error (map suit h) 0 = Some s0 /\
             (count_suit (map suit h) s0 =? 5) = all_same_suit h.
Proof.
  intros H. destruct h as [|a t] eqn:E; [discriminate|]. rewrite <- E in *.
  exists (suit a). split; [now rewrite E|].
  change 5 with (Z.of_nat 5). rewrite <- H, <- (length_map suit h).
  rewrite count_suit_full. apply eq_true_iff_eq.
  rewrite all_same_suit_iff, forallb_forall. split.
  - intros Hs c c' Hc Hc'.
    apply (in_map suit) in Hc, Hc'.
    apply Hs, Ascii.eqb_eq in Hc, Hc'. congruence.
  - intros Hs s Hin. apply in_map_iff in Hin as (c & <- & Hc).
    apply Ascii.eqb_eq, Hs; [rewrite E; now left | exact Hc].
Qed.

Lemma evaluate_factors (h : list Card) :
  length h = 5%nat ->
  Forall (fun c => In (rank c) RANKS) h ->
  evaluate5CardHand h
  = hand_value_of (sort_by Z.gtb (map rank_value h)) (all_same_suit h).
Proof.
  intros Hlen Hr. unfold evaluate5CardHand.
  rewrite (values_of_valid h Hr). cbn [bind].
  destruct (isFlush_spec h Hlen) as (s0 & Hs0 & Hf).
  rewrite Hs0. cbn [bind]. now rewrite Hf.
Qed.

(** ** The sorted values of a hand are among the enumerated vectors *)

Lemma face_values_complete (v : Z) : 2 <= v <= 14 -> In v face_values.
Proof.
  intros H.
  assert (v = 14 \/ v = 13 \/ v = 12 \/ v = 11 \/ v = 10 \/ v = 9 \/ v = 8
          \/ v = 7 \/ v = 6 \/ v = 5 \/ v = 4 \/ v = 3 \/ v = 2) as E by lia.
  unfold face_values. simpl. intuition auto.
Qed.

Lemma desc_lists_complete (n : nat) :
  forall (top : Z) (l : list Z),
    length l = n -> descending l ->
    Forall (fun v => 2 <= v <= 14 /\ v <= top) l ->
    In l (desc_lists n top).
Proof.
  induction n as [|n IH]; intros top l Hlen Hd Hr.
  - destruct l; [now left | discriminate].
  - destruct l as [|a t]; [discriminate|].
    injection Hlen as Hlen.
    inversion Hd as [|? ? Ht Ha]; subst.
    inversion Hr as [|? ? [Ha1 Ha2] Hr']; subst.
    cbn [desc_lists]. apply in_flat_map. exists a. split.
    + apply filter_In. split; [now apply face_values_complete|].
      now apply Z.leb_le.
    + apply in_map, IH; [reflexivity | exact Ht |].
      rewrite Forall_forall in *. intros v Hv.
      split; [apply Hr', Hv|]. specialize (Ha v Hv). lia.
Qed.

Lemma sorted_values_enumerated (h : list Card) :
  length h = 5%nat ->
  Forall (fun c => In (rank c) RANKS) h ->
  In (sort_by Z.gtb (map rank_value h)) all_desc5.
Proof.
  intros Hlen Hr. apply desc_lists_complete.
  - now rewrite sort_by_length, length_map.
  - apply sort_descending.
  - eapply Permutation_Forall; [apply sort_by_perm|].
    apply Forall_map. eapply Forall_impl; [|exact Hr].
    intros c Hc. pose proof (rank_value_range c Hc). lia.
Qed.

Lemma check_all_sound (P : list Z -> bool -> bool) :
  check_all P = true ->
  forall (l : list Z) (b : bool), In l all_desc5 -> P l b = true.
Proof.
  unfold check_all. intros H l b Hin.
  rewrite forallb_forall in H. specialize (H l Hin).
  apply andb_prop in H. now destruct b.
Qed.

Lemma length_agrees_all : check_all length_agrees = true.
Proof. vm_compute. reflexivity. Qed.

Lemma category_agrees_all : check_all category_agrees = true.
Proof. vm_compute. reflexivity. Qed.

(** ** The order on hand values *)

Lemma lexicographical_compare_spec (a b : list Z) :
  lexicographical_compare a b = true <-> lex_lt a b.
Proof.
  revert b. induction a as [|x a IH]; intros [|y b]; simpl.
  - split; [discriminate | inversion 1].
  - split; [constructor | reflexivity].
  - split; [discriminate | inversion 1].
  - destruct (Z.ltb_spec x y) as [Hxy|Hxy].
    + split; [intros _; now constructor | reflexivity].
    + destruct (Z.ltb_spec y x) as [Hyx|Hyx].
      * split; [discriminate|]. inversion 1; subst; lia.
      * assert (x = y) as -> by lia. rewrite IH. split.
        -- now constructor.
        -- inversion 1; subst; [lia | assumption].
Qed.

Lemma isBetterHand_spec (h1 h2 : HandValue) :
  isBetterHand h1 h2 = true <-> lex_lt h2 h1.
Proof. apply lexicographical_compare_spec. Qed.

Lemma lex_lt_irrefl (a : list Z) : ~ lex_lt a a.
Proof.
  induction a as [|x a IH]; inversion 1; subst; [lia | auto].
Qed.

Lemma lex_lt_trans (a b c : list Z) : lex_lt a b -> lex_lt b c -> lex_lt a c.
Proof.
  intros Hab. revert c.
  induction Hab as [y b | x y a b Hxy | x a b Hab IH]; intros c Hbc;
    inversion Hbc; subst;
    first [ apply lex_lt_nil | apply lex_lt_head; lia | apply lex_lt_tail; auto ].
Qed.

Lemma lex_lt_total (a b : list Z) : lex_lt a b \/ a = b \/ lex_lt b a.
Proof.
  revert b. induction a as [|x a IH]; intros [|y b].
  - now right; left.
  - left. constructor.
  - right; right. constructor.
  - destruct (Z.lt_total x y) as [H|[->|H]].
    + left. now constructor.
    + destruct (IH b) as [H|[->|H]].
      * left. now constructor.
      * now right; left.
      * right; right. now constructor.
    + right; right. now constructor.
Qed.

Lemma vector_eqb_spec (a b : list Z) : vector_eqb a b = true <-> a = b.
Proof.
  revert b. induction a as [|x a IH]; intros [|y b]; simpl;
    try (split; [discriminate | discriminate]); [tauto|].
  rewrite andb_true_iff, Z.eqb_eq, IH. split.
  - now intros [-> ->].
  - now injection 1.
Qed.

(** The category element decides the comparison. *)
Lemma higher_category_is_better (c1 c2 : Z) (t1 t2 : list Z) :
  c2 < c1 -> isBetterHand (c1 :: t1) (c2 :: t2) = true.
Proof.
  intros H. apply isBetterHand_spec. now constructor.
Qed.

(** ** Shape and category of a hand value *)

Lemma evaluate_shape (h : list Card) :
  length h = 5%nat ->
  Forall (fun c => In (rank c) RANKS) h ->
  exists c t, evaluate5CardHand h = Some (c :: t) /\ 1 <= c <= 9 /\
              length (c :: t) = value_length c.
Proof.
  intros Hlen Hr. rewrite (evaluate_factors h Hlen Hr).
  pose proof (check_all_sound length_agrees length_agrees_all _
                (all_same_suit h) (sorted_values_enumerated h Hlen Hr)) as H.
  unfold length_agrees in H.
  destruct (hand_value_of _ _) as [[|c t]|]; try discriminate.
  exists c, t. apply andb_prop in H as [H H3]. apply andb_prop in H as [H1 H2].
  split; [reflexivity|]. split; [lia|]. now apply Nat.eqb_eq.
Qed.

Lemma occurrences_perm (l l' : list Z) :
  Permutation l l' -> forall v, occurrences l v = occurrences l' v.
Proof.
  unfold occurrences. intros HP v.
  induction HP as [|x l l' _ IH|x y l|l l' l'' _ IH1 _ IH2]; simpl.
  - reflexivity.
  - destruct (v =? x); simpl; congruence.
  - destruct (v =? x), (v =? y); reflexivity.
  - congruence.
Qed.

Lemma category_of_ext (occ occ' : Z -> nat) (flush : bool) :
  (forall v, occ v = occ' v) -> category_of occ flush = category_of occ' flush.
Proof.
  intros H.
  unfold category_of, five_in_a_row, has_group, has_groups, run_to, holds.
  cbn [existsb forallb face_values]. now rewrite !H.
Qed.

Lemma evaluate_category (h : list Card) :
  length h = 5%nat ->
  Forall (fun c => In (rank c) RANKS) h ->
  exists t, evaluate5CardHand h
            = Some (category_number (poker_category h) :: t).
Proof.
  intros Hlen Hr. rewrite (evaluate_factors h Hlen Hr).
  pose proof (check_all_sound category_agrees category_agrees_all _
                (all_same_suit h) (sorted_values_enumerated h Hlen Hr)) as H.
  unfold category_agrees, head_is in H.
  rewrite <- (category_of_ext _ _ (all_same_suit h)
                (occurrences_perm _ _ (sort_by_perm Z.gtb (map rank_value h))))
    in H.
  fold (poker_category h) in H.
  destruct (hand_value_of _ _) as [[|c t]|]; try discriminate.
  apply Z.eqb_eq in H. subst c. now exists t.
Qed.

(** ** Deciding validity *)

Lemma card_eqb_spec (a b : Card) : card_eqb a b = true <-> a = b.
Proof.
  destruct a as [ra sa], b as [rb sb]. unfold card_eqb. cbn [rank suit].
  rewrite andb_true_iff, !Ascii.eqb_eq. split.
  - now intros [-> ->].
  - now injection 1.
Qed.

Lemma in_existsb_ascii (x : ascii) (l : list ascii) :
  existsb (Ascii.eqb x) l = true <-> In x l.
Proof.
  rewrite existsb_exists. split.
  - intros (y & Hy & E). apply Ascii.eqb_eq in E. now subst.
  - intros H. exists x. split; [exact H | apply Ascii.eqb_refl].
Qed.

Lemma in_existsb_card (c : Card) (l : list Card) :
  existsb (card_eqb c) l = true <-> In c l.
Proof.
  rewrite existsb_exists. split.
  - intros (y & Hy & E). apply card_eqb_spec in E. now subst.
  - intros H. exists c. split; [exact H | now apply card_eqb_spec].
Qed.

Lemma valid_cardb_spec (c : Card) : valid_cardb c = true <-> valid_card c.
Proof.
  unfold valid_cardb, valid_card.
  now rewrite andb_true_iff, !in_existsb_ascii.
Qed.

Lemma nodupb_spec (h : list Card) : nodupb h = true <-> NoDup h.
Proof.
  induction h as [|c t IH]; simpl.
  - split; [constructor | reflexivity].
  - rewrite andb_true_iff, negb_true_iff, IH, <- not_true_iff_false,
      in_existsb_card.
    split; [intros []; now constructor | now inversion 1].
Qed.

Lemma valid_handb_spec (n : nat) (h : list Card) :
  valid_handb n h = true -> valid_hand n h.
Proof.
  unfold valid_handb, valid_hand.
  rewrite !andb_true_iff, Nat.eqb_eq, nodupb_spec, forallb_forall, Forall_forall.
  intros [[H1 H2] H3]. repeat split; try assumption.
  all: now apply valid_cardb_spec, H3.
Qed.

(** ** The claims on the 5-card evaluator *)

(** C10. For two valid 5-card hands the evaluator returns values whose
    category lies in 1..9 and whose length is the one the table
    [value_length] gives the category (2 for 9 and 5, 3 for 8 and 7, 4 for 4
    and 3, 5 for 2, 6 for 6 and 1); values of one category have one length,
    and neither value is a strict prefix of the other. *)
Theorem value_length_by_category (h1 h2 : list Card) :
  valid_hand 5 h1 -> valid_hand 5 h2 ->
  exists c1 t1 c2 t2,
    evaluate5CardHand h1 = Some (c1 :: t1) /\
    evaluate5CardHand h2 = Some (c2 :: t2) /\
    1 <= c1 <= 9 /\ 1 <= c2 <= 9 /\
    length (c1 :: t1) = value_length c1 /\
    length (c2 :: t2) = value_length c2 /\
    (c1 = c2 -> length (c1 :: t1) = length (c2 :: t2)) /\
    (forall rest, c2 :: t2 = (c1 :: t1) ++ rest -> rest = []).
Proof.
  intros V1 V2.
  destruct (evaluate_shape h1 (proj1 V1) (valid_ranks 5 h1 V1))
    as (c1 & t1 & E1 & R1 & L1).
  destruct (evaluate_shape h2 (proj1 V2) (valid_ranks 5 h2 V2))
    as (c2 & t2 & E2 & R2 & L2).
  exists c1, t1, c2, t2. repeat (split; [assumption|]). split.
  - intros ->. now rewrite L1, L2.
  - intros rest E. assert (c1 = c2) as -> by (simpl in E; congruence).
    apply (f_equal (@length Z)) in E. rewrite length_app, L1, L2 in E.
    destruct rest; [reflexivity | simpl in E; lia].
Qed.

Lemma value_length_by_category_witness :
  exists c1 t1 c2 t2,
    evaluate5CardHand (hand "Ah2d3c4s5h") = Some (c1 :: t1) /\
    evaluate5CardHand (hand "AhAdKcQsJh") = Some (c2 :: t2) /\
    1 <= c1 <= 9 /\ 1 <= c2 <= 9 /\
    length (c1 :: t1) = value_length c1 /\
    length (c2 :: t2) = value_length c2 /\
    (c1 = c2 -> length (c1 :: t1) = length (c2 :: t2)) /\
    (forall rest, c2 :: t2 = (c1 :: t1) ++ rest -> rest = []).
Proof.
  apply value_length_by_category; apply valid_handb_spec; reflexivity.
Defined.

(** C2. The comparison of hand values is the lexicographic order, and the
    category decides it: when the first of two valid 5-card hands is of a
    strictly higher poker category than the second, the evaluator puts the
    category numbers in front of the two values and [isBetterHand] holds of
    them, whatever the tiebreak ranks are. *)
Theorem category_dominates (h1 h2 : list Card) :
  valid_hand 5 h1 -> valid_hand 5 h2 ->
  category_number (poker_category h2) < category_number (poker_category h1) ->
  exists t1 t2,
    evaluate5CardHand h1 = Some (category_number (poker_category h1) :: t1) /\
    evaluate5CardHand h2 = Some (category_number (poker_category h2) :: t2) /\
    isBetterHand (category_number (poker_category h1) :: t1)
                 (category_number (poker_category h2) :: t2) = true /\
    (forall v w : HandValue, isBetterHand v w = true <-> lex_lt w v).
Proof.
  intros V1 V2 Hc.
  destruct (evaluate_category h1 (proj1 V1) (valid_ranks 5 h1 V1)) as (t1 & E1).
  destruct (evaluate_category h2 (proj1 V2) (valid_ranks 5 h2 V2)) as (t2 & E2).
  exists t1, t2. repeat split; try assumption.
  - now apply higher_category_is_better.
  - apply isBetterHand_spec.
  - apply isBetterHand_spec.
Qed.

Lemma category_dominates_witness :
  exists t1 t2,
    evaluate5CardHand (hand "2h2d2c5s5h")
    = Some (category_number (poker_category (hand "2h2d2c5s5h")) :: t1) /\
    evaluate5CardHand (hand "AhAdKcKsQh")
    = Some (category_number (poker_category (hand "AhAdKcKsQh")) :: t2) /\
    isBetterHand (category_number (poker_category (hand "2h2d2c5s5h")) :: t1)
                 (category_number (poker_category (hand "AhAdKcKsQh")) :: t2)
    = true /\
    (forall v w : HandValue, isBetterHand v w = true <-> lex_lt w v).
Proof.
  apply category_dominates;
    [ apply valid_handb_spec; reflexivity
    | apply valid_handb_spec; reflexivity
    | reflexivity ].
Defined.

Lemma ranks_valid (l : list ascii) :
  forallb (fun r => existsb (Ascii.eqb r) RANKS) l = true ->
  Forall (fun r => In r RANKS) l.
Proof.
  rewrite forallb_forall, Forall_forall. intros H r Hr.
  now apply in_existsb_ascii, H.
Qed.

(** The values of a hand whose ranks are known up to their order. *)
Lemma evaluate_of_ranks (h : list Card) (ranks : list ascii) :
  length ranks = 5%nat ->
  Forall (fun r => In r RANKS) ranks ->
  Permutation (map rank h) ranks ->
  evaluate5CardHand h
  = hand_value_of (sort_by Z.gtb (map value_of_rank ranks)) (all_same_suit h).
Proof.
  intros Hlen Hr HP.
  assert (length h = 5%nat) as Hh
      by now rewrite <- Hlen, <- (Permutation_length HP), length_map.
  assert (Forall (fun c => In (rank c) RANKS) h) as Hv.
  { apply (proj1 (Forall_map rank (fun r => In r RANKS) h)).
    eapply Permutation_Forall; [symmetry; exact HP | exact Hr]. }
  rewrite (evaluate_factors h Hh Hv). f_equal.
  apply sort_of_perm.
  change (map rank_value h) with (map (fun c => value_of_rank (rank c)) h).
  rewrite <- map_map. now apply Permutation_map.
Qed.

Lemma not_all_same_suit (h : list Card) :
  (exists c c', In c h /\ In c' h /\ suit c <> suit c') ->
  all_same_suit h = false.
Proof.
  intros (c & c' & Hc & Hc' & Hne). apply not_true_iff_false.
  rewrite all_same_suit_iff. intros H. apply Hne. now apply H.
Qed.

(** C1. A hand of the ranks A, 2, 3, 4, 5 whose suits are not all the same
    is valued [5; 5]: a straight whose high card is 5, not 14.  Every hand of
    the ranks 2, 3, 4, 5, 6 (a six-high straight, in one suit or not) is
    valued strictly above it. *)
Theorem wheel_is_five_high (h : list Card) :
  Permutation (map rank h) wheel_ranks ->
  (exists c c', In c h /\ In c' h /\ suit c <> suit c') ->
  evaluate5CardHand h = Some [5; 5] /\
  forall h6 : list Card,
    Permutation (map rank h6) six_high_ranks ->
    exists v6, evaluate5CardHand h6 = Some v6 /\
               isBetterHand v6 [5; 5] = true /\
               isBetterHand [5; 5] v6 = false /\
               lex_lt [5; 5] v6.
Proof.
  intros HP Hs. split.
  - rewrite (evaluate_of_ranks h wheel_ranks eq_refl
               (ranks_valid wheel_ranks eq_refl) HP).
    now rewrite (not_all_same_suit h Hs).
  - intros h6 HP6.
    rewrite (evaluate_of_ranks h6 six_high_ranks eq_refl
               (ranks_valid six_high_ranks eq_refl) HP6).
    destruct (all_same_suit h6); eexists;
      (split; [reflexivity|]); (split; [reflexivity|]);
      (split; [reflexivity|]); apply lexicographical_compare_spec; reflexivity.
Qed.

Lemma wheel_is_five_high_witness :
  evaluate5CardHand (hand "Ah2d3c4s5h") = Some [5; 5] /\
  forall h6 : list Card,
    Permutation (map rank h6) six_high_ranks ->
    exists v6, evaluate5CardHand h6 = Some v6 /\
               isBetterHand v6 [5; 5] = true /\
               isBetterHand [5; 5] v6 = false /\
               lex_lt [5; 5] v6.
Proof.
  apply wheel_is_five_high.
  - reflexivity.
  - exists (mkCard "A" "h"), (mkCard "2" "d"). cbn.
    repeat split; [tauto | tauto | discriminate].
Defined.

(** ** One pair *)

Lemma value_of_rank_inj (r r' : ascii) :
  In r RANKS -> In r' RANKS -> value_of_rank r = value_of_rank r' -> r = r'.
Proof.
  cbn. intros H H'.
  repeat (destruct H as [<- | H]; [|]); try contradiction;
    repeat (destruct H' as [<- | H']; [|]); try contradiction;
    cbn; intros E; first [reflexivity | discriminate E].
Qed.

(** Two cards of one rank in a hand without duplicates differ in suit. *)
Lemma repeated_value_not_flush (h : list Card) :
  NoDup h ->
  Forall (fun c => In (rank c) RANKS) h ->
  ~ NoDup (map rank_value h) ->
  all_same_suit h = false.
Proof.
  intros Hnd Hr Hrep. apply not_true_iff_false. intros Hs.
  apply Hrep. apply Finite.Injective_map_NoDup_in; [|exact Hnd].
  intros [rx sx] [ry sy] Hx Hy E.
  rewrite all_same_suit_iff in Hs. specialize (Hs _ _ Hx Hy).
  rewrite Forall_forall in Hr.
  pose proof (value_of_rank_inj _ _ (Hr _ Hx) (Hr _ Hy) E) as Er.
  cbn in Hs, Er. now subst.
Qed.

Lemma check_pairs_ok : check_pairs = true.
Proof. vm_compute. reflexivity. Qed.

Lemma pair_agrees_all (p k1 k2 k3 : Z) :
  In p face_values -> In k1 face_values ->
  In k2 face_values -> In k3 face_values ->
  k3 < k2 < k1 -> p <> k1 -> p <> k2 -> p <> k3 ->
  hand_value_of (sort_by Z.gtb [p; p; k1; k2; k3]) false
  = Some [2; p; k1; k2; k3].
Proof.
  intros Hp H1 H2 H3 Hk N1 N2 N3.
  pose proof check_pairs_ok as H. unfold check_pairs in H.
  rewrite forallb_forall in H. specialize (H p Hp).
  rewrite forallb_forall in H. specialize (H k1 H1).
  rewrite forallb_forall in H. specialize (H k2 H2).
  rewrite forallb_forall in H. specialize (H k3 H3).
  unfold pair_agrees in H.
  replace (k3 <? k2) with true in H by (symmetry; apply Z.ltb_lt; lia).
  replace (k2 <? k1) with true in H by (symmetry; apply Z.ltb_lt; lia).
  replace (p =? k1) with false in H by (symmetry; now apply Z.eqb_neq).
  replace (p =? k2) with false in H by (symmetry; now apply Z.eqb_neq).
  replace (p =? k3) with false in H by (symmetry; now apply Z.eqb_neq).
  cbn [andb negb] in H. unfold value_eqb in H.
  destruct (hand_value_of _ _) as [v|]; [|discriminate].
  apply vector_eqb_spec in H. now subst.
Qed.

Lemma one_pair_evaluated (h : list Card) (p k1 k2 k3 : Z) :
  one_pair h p k1 k2 k3 -> evaluate5CardHand h = Some [2; p; k1; k2; k3].
Proof.
  intros (V & HP & Hk & N1 & N2 & N3).
  pose proof (valid_ranks 5 h V) as Hr.
  rewrite (evaluate_factors h (proj1 V) Hr).
  rewrite (sort_of_perm _ _ HP).
  rewrite (repeated_value_not_flush h (proj1 (proj2 V)) Hr).
  - assert (Forall (fun v => In v face_values) [p; p; k1; k2; k3]) as Hf.
    { eapply Permutation_Forall; [exact HP|].
      apply Forall_map. eapply Forall_impl; [|exact Hr].
      intros c Hc. now apply face_values_complete, rank_value_range. }
    inversion Hf as [|? ? Hp Hf1]; subst.
    inversion Hf1 as [|? ? _ Hf2]; subst.
    inversion Hf2 as [|? ? Hk1 Hf3]; subst.
    inversion Hf3 as [|? ? Hk2 Hf4]; subst.
    inversion Hf4 as [|? ? Hk3 _]; subst.
    now apply pair_agrees_all.
  - intros Hnd. apply (Permutation_NoDup HP) in Hnd.
    inversion Hnd as [|? ? Hin _]; subst. apply Hin. now left.
Qed.

(** C9. A hand without duplicates that holds exactly one pair [p] and three
    kickers [k1 > k2 > k3] of other ranks (it is then neither a flush nor a
    straight) is valued [2; p; k1; k2; k3].  Two such hands with one pair
    rank are therefore ordered by the first kicker in which they differ. *)
Theorem one_pair_value (h h' : list Card) (p k1 k2 k3 k1' k2' k3' : Z) :
  one_pair h p k1 k2 k3 ->
  one_pair h' p k1' k2' k3' ->
  all_same_suit h = false /\
  five_in_a_row (occurrences (map rank_value h)) = false /\
  evaluate5CardHand h = Some [2; p; k1; k2; k3] /\
  evaluate5CardHand h' = Some [2; p; k1'; k2'; k3'] /\
  (isBetterHand [2; p; k1; k2; k3] [2; p; k1'; k2'; k3'] = true
   <-> lex_lt [k1'; k2'; k3'] [k1; k2; k3]).
Proof.
  intros H H'.
  pose proof (one_pair_evaluated h p k1 k2 k3 H) as E.
  pose proof (one_pair_evaluated h' p k1' k2' k3' H') as E'.
  destruct H as (V & HP & Hk & N1 & N2 & N3).
  pose proof (valid_ranks 5 h V) as Hr.
  split; [|split; [|split; [exact E | split; [exact E'|]]]].
  - apply (repeated_value_not_flush h (proj1 (proj2 V)) Hr).
    intros Hnd. apply (Permutation_NoDup HP) in Hnd.
    inversion Hnd as [|? ? Hin _]; subst. apply Hin. now left.
  - destruct (evaluate_category h (proj1 V) Hr) as (t & Ec).
    rewrite E in Ec. injection Ec as Ec _.
    unfold poker_category, category_of in Ec.
    destruct (five_in_a_row _); [|reflexivity].
    destruct (all_same_suit h); cbn [andb] in Ec;
      repeat match type of Ec with
             | context [if ?b then _ else _] => destruct b
             end; discriminate Ec.
  - rewrite isBetterHand_spec. split.
    + inversion 1 as [| ? ? ? ? Hlt | ? ? ? H2]; subst; [lia|].
      inversion H2 as [| ? ? ? ? Hlt | ? ? ? H3]; subst; [lia|]. exact H3.
    + intros Hl. now do 2 apply lex_lt_tail.
Qed.

Lemma one_pair_value_witness :
  all_same_suit (hand "AhAdKcQsJh") = false /\
  five_in_a_row (occurrences (map rank_value (hand "AhAdKcQsJh"))) = false /\
  evaluate5CardHand (hand "AhAdKcQsJh") = Some [2; 14; 13; 12; 11] /\
  evaluate5CardHand (hand "AhAd2c3s4h") = Some [2; 14; 4; 3; 2] /\
  (isBetterHand [2; 14; 13; 12; 11] [2; 14; 4; 3; 2] = true
   <-> lex_lt [4; 3; 2] [13; 12; 11]).
Proof.
  apply one_pair_value.
  - split; [apply valid_handb_spec; reflexivity|].
    split; [apply Permutation_refl|]. lia.
  - split; [apply valid_handb_spec; reflexivity|].
    split; [|lia].
    do 2 apply perm_skip. apply (Permutation_rev [2; 3; 4]).
Defined.

(** ** Loops in the failure monad *)

Section Loops.
Context {S : Type}.

Lemma fold_from_None (fs : list (S -> option S)) :
  fold_left (fun acc f => s' <- acc ;; f s') fs None = None.
Proof. induction fs as [|f t IH]; simpl; auto. Qed.

Lemma run_all_cons (f : S -> option S) (fs : list (S -> option S)) (s : S) :
  run_all (f :: fs) s = s' <- f s ;; run_all fs s'.
Proof.
  unfold run_all. simpl. destruct (f s); [reflexivity | apply fold_from_None].
Qed.

Lemma run_all_app (fs gs : list (S -> option S)) :
  forall s, run_all (fs ++ gs) s = s' <- run_all fs s ;; run_all gs s'.
Proof.
  induction fs as [|f t IH]; intros s; [reflexivity|].
  cbn [app]. rewrite !run_all_cons.
  destruct (f s); simpl; [apply IH | reflexivity].
Qed.

Lemma run_all_ext (fs gs : list (S -> option S)) :
  Forall2 (fun f g => forall s, f s = g s) fs gs ->
  forall s, run_all fs s = run_all gs s.
Proof.
  induction 1 as [|f g fs gs Hfg _ IH]; intros s; [reflexivity|].
  rewrite !run_all_cons, Hfg. destruct (g s); simpl; auto.
Qed.

Lemma for_range_run_all (lo hi : nat) (body : nat -> S -> option S) (s : S) :
  for_range lo hi body s = run_all (map body (seq lo (hi - lo))) s.
Proof.
  unfold for_range, run_all.
  generalize (Some s) as acc, (seq lo (hi - lo)) as xs.
  intros acc xs. revert acc.
  induction xs as [|x t IH]; intros acc; simpl; auto.
Qed.

(** A loop whose body is itself a sequence of steps runs all the steps. *)
Lemma for_range_nested (lo hi : nat) (body : nat -> S -> option S)
    (F : nat -> list (S -> option S)) :
  (forall x s, body x s = run_all (F x) s) ->
  forall s, for_range lo hi body s
            = run_all (flat_map F (seq lo (hi - lo))) s.
Proof.
  intros HF s. rewrite for_range_run_all.
  generalize (seq lo (hi - lo)) as xs. intros xs. revert s.
  induction xs as [|x t IH]; intros s; [reflexivity|].
  cbn [map flat_map]. rewrite run_all_cons, run_all_app, HF.
  destruct (run_all (F x) s); simpl; auto.
Qed.

(** The loop nest visits [index_combinations], in this order. *)
Lemma loops5_unrolled
    (body : nat -> nat -> nat -> nat -> nat -> S -> option S) (s : S) :
  loops5 body s = run_all (map (apply5 body) index_combinations) s.
Proof.
  unfold loops5.
  rewrite (for_range_nested 0 3 _
    (fun i => flat_map (fun j => flat_map (fun k => flat_map (fun l =>
       map (fun m => body i j k l m) (seq (l + 1) (7 - (l + 1))))
       (seq (k + 1) (6 - (k + 1)))) (seq (j + 1) (5 - (j + 1))))
       (seq (i + 1) (4 - (i + 1))))).
  - reflexivity.
  - intros i s1. apply for_range_nested.
    intros j s2. apply for_range_nested.
    intros k s3. apply for_range_nested.
    intros l s4. apply for_range_run_all.
Qed.

(** A loop that evaluates and then updates is the update folded over the
    evaluations, when they all succeed. *)
Lemma run_all_mapM {X V : Type} (ev : X -> option V) (upd : S -> V -> S)
    (xs : list X) :
  forall s0 : S,
    run_all (map (fun x s => v <- ev x ;; Some (upd s v)) xs) s0
    = vals <- mapM ev xs ;; Some (fold_left upd vals s0).
Proof.
  induction xs as [|x t IH]; intros s0; [reflexivity|].
  cbn [map mapM]. rewrite run_all_cons.
  destruct (ev x) as [v|]; simpl; [|reflexivity].
  rewrite IH. now destruct (mapM ev t).
Qed.
End Loops.

(** ** The best hand of seven cards *)

Lemma seven_cards (l : list Card) :
  length l = 7%nat -> exists a b c d e f g, l = [a; b; c; d; e; f; g].
Proof.
  destruct l as [|a [|b [|c [|d [|e [|f [|g [|x t]]]]]]]]; try discriminate.
  intros _. now exists a, b, c, d, e, f, g.
Qed.

(** On seven cards the selector evaluates the 21 sublists of five cards in
    turn and keeps the better value. *)
Lemma bestHandValue_unrolled (seven : list Card) :
  length seven = 7%nat ->
  bestHandValue seven
  = vals <- mapM evaluate5CardHand (combs 5 seven) ;;
    Some (bestVal (fold_left pick_better vals (mkBest [] true))).
Proof.
  intros H. destruct (seven_cards seven H) as (a & b & c & d & e & f & g & ->).
  unfold bestHandValue. rewrite loops5_unrolled.
  rewrite (run_all_ext _
             (map (fun five s => v <- evaluate5CardHand five ;;
                                 Some (pick_better s v))
                (combs 5 [a; b; c; d; e; f; g]))).
  - rewrite run_all_mapM. now destruct (mapM _ _).
  - cbv [index_combinations combs seq map app].
    repeat (constructor; [intros s; reflexivity|]). constructor.
Qed.

Lemma pick_better_later (b v : HandValue) :
  pick_better (mkBest b false) v
  = if isBetterHand v b then mkBest v false else mkBest b false.
Proof. reflexivity. Qed.

Lemma pick_better_first (b v : HandValue) :
  pick_better (mkBest b true) v = mkBest v false.
Proof. reflexivity. Qed.

(** The value kept by the loop is a greatest one of those it has seen. *)
Lemma fold_pick_better (vals : list HandValue) :
  forall b : HandValue,
    let r := bestVal (fold_left pick_better vals (mkBest b false)) in
    (r = b \/ In r vals) /\ ~ lex_lt r b /\ forall v, In v vals -> ~ lex_lt r v.
Proof.
  induction vals as [|v t IH]; intros b; cbn zeta.
  - cbn. repeat split; [now left | apply lex_lt_irrefl | intros _ []].
  - cbn [fold_left]. rewrite pick_better_later.
    destruct (isBetterHand v b) eqn:E.
    + apply isBetterHand_spec in E.
      destruct (IH v) as (Hin & Hv & Ht). repeat split.
      * right. destruct Hin as [->|Hin]; [now left | now right].
      * intros Hr. apply Hv. eapply lex_lt_trans; eassumption.
      * intros w [<-|Hw]; [exact Hv | now apply Ht].
    + assert (~ lex_lt b v) as Hbv
          by (rewrite <- isBetterHand_spec, E; discriminate).
      destruct (IH b) as (Hin & Hb & Ht). repeat split.
      * destruct Hin as [->|Hin]; [now left | now right; right].
      * exact Hb.
      * intros w [<-|Hw]; [|now apply Ht].
        intros Hr. destruct (lex_lt_total b v) as [H|[->|H]]; auto.
        apply Hb. eapply lex_lt_trans; eassumption.
Qed.

Lemma fold_pick_better_first (v : HandValue) (vals : list HandValue) :
  let r := bestVal (fold_left pick_better (v :: vals) (mkBest [] true)) in
  In r (v :: vals) /\ forall w, In w (v :: vals) -> ~ lex_lt r w.
Proof.
  cbn zeta. cbn [fold_left]. rewrite pick_better_first.
  destruct (fold_pick_better vals v) as (Hin & Hv & Ht). split.
  - destruct Hin as [->|Hin]; [now left | now right].
  - intros w [<-|Hw]; [exact Hv | now apply Ht].
Qed.

(** ** Sublists of a given length *)

Lemma combs_0 {A : Type} (l : list A) : combs 0 l = [[]].
Proof. now destruct l. Qed.

Lemma combs_spec {A : Type} (P : A -> Prop) (k : nat) :
  forall (l s : list A),
    In s (combs k l) ->
    length s = k /\ incl s l /\ (Forall P l -> Forall P s).
Proof.
  induction k as [|k IH]; intros l s Hin.
  - rewrite combs_0 in Hin. destruct Hin as [<-|[]].
    repeat split; [intros x [] | constructor].
  - revert s Hin. induction l as [|x t IHl]; intros s Hin; [destruct Hin|].
    cbn [combs] in Hin. apply in_app_or in Hin as [Hin|Hin].
    + apply in_map_iff in Hin as (s' & <- & Hs').
      destruct (IH t s' Hs') as (Hlen & Hincl & HP). repeat split.
      * simpl. now rewrite Hlen.
      * intros y [<-|Hy]; [now left | right; now apply Hincl].
      * intros HF. inversion HF; subst. constructor; auto.
    + destruct (IHl s Hin) as (Hlen & Hincl & HP). repeat split.
      * exact Hlen.
      * intros y Hy. right. now apply Hincl.
      * intros HF. inversion HF; subst. auto.
Qed.

Lemma card_eq_dec (a b : Card) : {a = b} + {a <> b}.
Proof.
  destruct (card_eqb a b) eqn:E.
  - left. now apply card_eqb_spec.
  - right. intros H. apply card_eqb_spec in H. congruence.
Qed.

(** Every set of cards of a hand is one of its sublists, up to the order. *)
Lemma subset_in_combs (l : list Card) :
  forall s : list Card,
    NoDup s -> incl s l ->
    exists s', In s' (combs (length s) l) /\ Permutation s s'.
Proof.
  induction l as [|x t IH]; intros s Hnd Hincl.
  - destruct s as [|y s]; [|destruct (Hincl y); now left].
    exists []. split; [now left | constructor].
  - destruct (in_dec card_eq_dec x s) as [Hx|Hx].
    + apply in_split in Hx as (s1 & s2 & ->).
      apply NoDup_remove in Hnd as [Hnd Hx].
      destruct (IH (s1 ++ s2) Hnd) as (s' & Hs' & HP).
      { intros y Hy. assert (In y (s1 ++ x :: s2)) as Hy'.
        { apply in_app_or in Hy. apply in_or_app. simpl. tauto. }
        destruct (Hincl y Hy') as [<-|Hy'']; [contradiction | exact Hy'']. }
      exists (x :: s'). split.
      * rewrite length_app. cbn [length]. rewrite Nat.add_succ_r, <- length_app.
        cbn [combs]. apply in_or_app. left. now apply in_map.
      * rewrite <- Permutation_middle. now constructor.
    + destruct (IH s Hnd) as (s' & Hs' & HP).
      { intros y Hy. destruct (Hincl y Hy) as [<-|Hy']; [contradiction | exact Hy']. }
      exists s'. split; [|exact HP].
      destruct (length s) as [|k]; [now rewrite combs_0 in *|].
      cbn [combs]. apply in_or_app. now right.
Qed.

(** The evaluator does not depend on the order of the five cards. *)
Lemma evaluate_perm (a b : list Card) :
  Permutation a b -> length a = 5%nat ->
  Forall (fun c => In (rank c) RANKS) a ->
  evaluate5CardHand a = evaluate5CardHand b.
Proof.
  intros HP Hlen Hr.
  rewrite (evaluate_factors a Hlen Hr).
  rewrite (evaluate_factors b).
  - f_equal.
    + apply sort_of_perm. now apply Permutation_map.
    + apply eq_true_iff_eq. rewrite !all_same_suit_iff.
      split; intros H c c' Hc Hc'; apply H;
        eapply Permutation_in; try eassumption; now symmetry.
  - now rewrite <- (Permutation_length HP).
  - eapply Permutation_Forall; eassumption.
Qed.

(** ** The index tuples of the loop nest *)

Lemma nat_list_eqb_spec (a b : list nat) : nat_list_eqb a b = true <-> a = b.
Proof.
  revert b. induction a as [|x a IH]; intros [|y b]; simpl;
    try (split; [discriminate | discriminate]); [tauto|].
  rewrite andb_true_iff, Nat.eqb_eq, IH. split.
  - now intros [-> ->].
  - now injection 1.
Qed.

Lemma covers_all_ok : covers_all = true.
Proof. vm_compute. reflexivity. Qed.

Lemma index_combinations_spec (t : list nat) :
  In t index_combinations <-> increasing5 t.
Proof.
  split.
  - intros H. unfold increasing5. cbv in H.
    repeat (destruct H as [<-|H];
            [do 5 eexists; split; [reflexivity | lia]|]).
    destruct H.
  - intros (i & j & k & l & m & -> & Hi & Hj & Hk & Hl & Hm).
    pose proof covers_all_ok as H. unfold covers_all in H.
    rewrite forallb_forall in H. specialize (H i ltac:(apply in_seq; lia)).
    rewrite forallb_forall in H. specialize (H j ltac:(apply in_seq; lia)).
    rewrite forallb_forall in H. specialize (H k ltac:(apply in_seq; lia)).
    rewrite forallb_forall in H. specialize (H l ltac:(apply in_seq; lia)).
    rewrite forallb_forall in H. specialize (H m ltac:(apply in_seq; lia)).
    replace (i <? j)%nat with true in H by (symmetry; now apply Nat.ltb_lt).
    replace (j <? k)%nat with true in H by (symmetry; now apply Nat.ltb_lt).
    replace (k <? l)%nat with true in H by (symmetry; now apply Nat.ltb_lt).
    replace (l <? m)%nat with true in H by (symmetry; now apply Nat.ltb_lt).
    cbn [andb] in H. apply existsb_exists in H as (t & Ht & E).
    apply nat_list_eqb_spec in E. now subst.
Qed.

Lemma index_combinations_NoDup : NoDup index_combinations.
Proof.
  cbv.
  repeat (constructor;
          [intros H; repeat (destruct H as [H|H]; [discriminate H|]); exact H|]).
  constructor.
Qed.

Lemma cards_at_combs (seven : list Card) :
  length seven = 7%nat ->
  map (cards_at seven) index_combinations = map Some (combs 5 seven).
Proof.
  intros H. destruct (seven_cards seven H) as (a & b & c & d & e & f & g & ->).
  reflexivity.
Qed.

(** C3. On seven distinct cards [bestHandValue] returns a value that some
    five of the cards have and that no five of them exceed in the
    lexicographic order; the five cards range over all subsets, in any
    order.  The loop nest visits 21 index tuples, no tuple twice, and they
    are exactly the increasing tuples [i < j < k < l < m < 7], that is, each
    choice of 5 indices among 7 once; the hands at these indices are the 21
    sublists of five cards. *)
Theorem bestHandValue_is_maximum (seven : list Card) :
  valid_hand 7 seven ->
  (exists best,
      bestHandValue seven = Some best /\
      (exists five,
          In five (combs 5 seven) /\ evaluate5CardHand five = Some best) /\
      (forall five,
          NoDup five -> incl five seven -> length five = 5%nat ->
          exists v, evaluate5CardHand five = Some v /\
                    isBetterHand v best = false /\ ~ lex_lt best v)) /\
  length (combs 5 seven) = 21%nat /\
  visited_indices = Some index_combinations /\
  length index_combinations = 21%nat /\
  NoDup index_combinations /\
  (forall t, In t index_combinations <-> increasing5 t) /\
  map (cards_at seven) index_combinations = map Some (combs 5 seven).
Proof.
  intros V. pose proof (valid_ranks 7 seven V) as Hr.
  destruct V as (Hlen & Hnd & _).
  split; [|repeat split].
  - pose (g := fun five => match evaluate5CardHand five with
                           | Some v => v
                           | None => []
                           end).
    assert (forall five, length five = 5%nat -> incl five seven ->
                         evaluate5CardHand five = Some (g five)) as Hg.
    { intros five H5 Hincl.
      destruct (evaluate_shape five H5) as (c & t & E & _).
      - rewrite Forall_forall in *. intros x Hx. now apply Hr, Hincl.
      - unfold g. now rewrite E. }
    assert (mapM evaluate5CardHand (combs 5 seven)
            = Some (map g (combs 5 seven))) as Hvals.
    { apply mapM_total, Forall_forall. intros five Hin.
      destruct (combs_spec (fun _ => True) 5 seven five Hin) as (H5 & Hincl & _).
      now apply Hg. }
    rewrite (bestHandValue_unrolled seven Hlen), Hvals. cbn [bind].
    assert (length (combs 5 seven) = 21%nat) as H21.
    { destruct (seven_cards seven Hlen) as (a & b & c & d & e & f & h & ->).
      reflexivity. }
    destruct (combs 5 seven) as [|f1 rest1] eqn:Ecombs; [discriminate H21|].
    cbn [map].
    pose proof (fold_pick_better_first (g f1) (map g rest1)) as Hfold.
    cbn zeta in Hfold.
    set (best := bestVal (fold_left pick_better (g f1 :: map g rest1) _)) in *.
    destruct Hfold as (Hin & Hmax).
    exists best. split; [reflexivity|]. split.
    + change (g f1 :: map g rest1) with (map g (f1 :: rest1)) in Hin.
      apply in_map_iff in Hin as (five & E & Hfive).
      exists five. split; [exact Hfive|]. rewrite <- E.
      rewrite <- Ecombs in Hfive.
      destruct (combs_spec (fun _ => True) 5 seven five Hfive)
        as (H5 & Hincl & _).
      now apply Hg.
    + intros five Hnd5 Hincl H5.
      destruct (subset_in_combs seven five Hnd5 Hincl) as (s' & Hs' & HP).
      rewrite H5 in Hs'.
      exists (g s').
      destruct (combs_spec (fun _ => True) 5 seven s' Hs') as (H5' & Hincl' & _).
      assert (~ lex_lt best (g s')) as Hle.
      { apply Hmax. change (g f1 :: map g rest1) with (map g (f1 :: rest1)).
        apply in_map. now rewrite <- Ecombs. }
      split; [|split; [|exact Hle]].
      * rewrite (evaluate_perm five s' HP H5); [now apply Hg|].
        rewrite Forall_forall in *. intros x Hx. now apply Hr, Hincl.
      * apply not_true_iff_false. now rewrite isBetterHand_spec.
  - destruct (seven_cards seven Hlen) as (a & b & c & d & e & f & h & ->).
    reflexivity.
  - apply index_combinations_NoDup.
  - apply index_combinations_spec.
  - apply index_combinations_spec.
  - now apply cards_at_combs.
Qed.

Lemma bestHandValue_is_maximum_witness :
  (exists best,
      bestHandValue (hand "Ah2d3c4s5h9dTd") = Some best /\
      (exists five,
          In five (combs 5 (hand "Ah2d3c4s5h9dTd")) /\
          evaluate5CardHand five = Some best) /\
      (forall five,
          NoDup five -> incl five (hand "Ah2d3c4s5h9dTd") ->
          length five = 5%nat ->
          exists v, evaluate5CardHand five = Some v /\
                    isBetterHand v best = false /\ ~ lex_lt best v)) /\
  length (combs 5 (hand "Ah2d3c4s5h9dTd")) = 21%nat /\
  visited_indices = Some index_combinations /\
  length index_combinations = 21%nat /\
  NoDup index_combinations /\
  (forall t, In t index_combinations <-> increasing5 t) /\
  map (cards_at (hand "Ah2d3c4s5h9dTd")) index_combinations
  = map Some (combs 5 (hand "Ah2d3c4s5h9dTd")).
Proof.
  apply bestHandValue_is_maximum. apply valid_handb_spec. reflexivity.
Defined.

(** ** The deck *)

Lemma excluded_iff (exclude : list Card) (c : Card) :
  existsb (fun e => card_eqb e c) exclude = true <-> In c exclude.
Proof.
  rewrite existsb_exists. split.
  - intros (e & He & E). apply card_eqb_spec in E. now subst.
  - intros H. exists c. split; [exact H | now apply card_eqb_spec].
Qed.

Lemma not_excluded_iff (exclude : list Card) (c : Card) :
  not_excluded exclude c = true <-> ~ In c exclude.
Proof.
  unfold not_excluded.
  now rewrite negb_true_iff, <- not_true_iff_false, excluded_iff.
Qed.

Lemma push_if_not_excluded (exclude : list Card) (r : ascii) (ss : list ascii) :
  flat_map
    (fun x =>
       let c := mkCard r x in
       if existsb (fun e => card_eqb e c) exclude then [] else [c]) ss
  = filter (not_excluded exclude) (map (mkCard r) ss).
Proof.
  cbv zeta.
  induction ss as [|x xs IH]; [reflexivity|].
  cbn [flat_map map filter]. rewrite IH. unfold not_excluded.
  now destruct (existsb _ exclude).
Qed.

(** The two loops push the cards of [all_cards] that pass the test. *)
Lemma buildDeck_filter (exclude : list Card) :
  buildDeck exclude = filter (not_excluded exclude) all_cards.
Proof.
  unfold buildDeck, all_cards.
  generalize RANKS as rs. intros rs.
  induction rs as [|r rs IH]; [reflexivity|].
  cbn [flat_map]. rewrite filter_app, <- IH. f_equal.
  apply push_if_not_excluded.
Qed.

Lemma all_cards_spec (c : Card) : In c all_cards <-> valid_card c.
Proof.
  unfold all_cards, valid_card. rewrite in_flat_map. split.
  - intros (r & Hr & Hc). apply in_map_iff in Hc as (x & <- & Hx). now split.
  - intros [Hr Hs]. exists (rank c). split; [exact Hr|].
    apply in_map_iff. exists (suit c). split; [now destruct c | exact Hs].
Qed.

Lemma all_cards_NoDup : NoDup all_cards.
Proof. apply nodupb_spec. vm_compute. reflexivity. Qed.

Lemma buildDeck_In (exclude : list Card) (c : Card) :
  In c (buildDeck exclude) <-> valid_card c /\ ~ In c exclude.
Proof.
  now rewrite buildDeck_filter, filter_In, all_cards_spec, not_excluded_iff.
Qed.

Lemma buildDeck_NoDup (exclude : list Card) : NoDup (buildDeck exclude).
Proof. rewrite buildDeck_filter. apply NoDup_filter, all_cards_NoDup. Qed.

(** Excluding [n] different cards of the 52 leaves [52 - n] cards. *)
Lemma buildDeck_length (exclude : list Card) :
  NoDup exclude -> Forall valid_card exclude ->
  length (buildDeck exclude) = (52 - length exclude)%nat.
Proof.
  intros Hnd Hv. rewrite buildDeck_filter.
  pose proof (filter_length (not_excluded exclude) all_cards) as Hsplit.
  change (length all_cards) with 52%nat in Hsplit.
  assert (Permutation
            (filter (fun c => negb (not_excluded exclude c)) all_cards) exclude)
    as HP.
  { apply NoDup_Permutation; [apply NoDup_filter, all_cards_NoDup | exact Hnd |].
    intros c. rewrite filter_In, all_cards_spec, negb_true_iff.
    rewrite <- not_true_iff_false, not_excluded_iff.
    rewrite Forall_forall in Hv. split.
    - intros [_ H]. destruct (in_dec card_eq_dec c exclude); tauto.
    - intros H. split; [now apply Hv | tauto]. }
  apply Permutation_length in HP. lia.
Qed.

(** C6. For every exclusion list the deck of [buildDeck] holds no card
    twice, and a card is in the deck exactly when it is one of the 52
    rank-suit combinations and is not excluded.  When the exclusion list is a
    hero hand of two different cards of the 52, the deck has 50 cards, and so
    has every shuffle of it. *)
Theorem buildDeck_spec (exclude : list Card) :
  NoDup (buildDeck exclude) /\
  (forall c, In c (buildDeck exclude) <-> valid_card c /\ ~ In c exclude) /\
  (valid_hand 2 exclude ->
   length (buildDeck exclude) = 50%nat /\
   forall shuffled, Permutation (buildDeck exclude) shuffled ->
                    length shuffled = 50%nat).
Proof.
  split; [apply buildDeck_NoDup|]. split; [apply buildDeck_In|].
  intros (Hlen & Hnd & Hv).
  assert (length (buildDeck exclude) = 50%nat) as H50
      by (rewrite (buildDeck_length exclude Hnd Hv), Hlen; reflexivity).
  split; [exact H50|].
  intros shuffled HP. now rewrite <- (Permutation_length HP).
Qed.

Lemma buildDeck_spec_witness :
  length (buildDeck (parseHand "AKs")) = 50%nat /\
  forall shuffled,
    Permutation (buildDeck (parseHand "AKs")) shuffled ->
    length shuffled = 50%nat.
Proof.
  apply (proj2 (proj2 (buildDeck_spec (parseHand "AKs")))).
  apply valid_handb_spec. reflexivity.
Defined.

(** ** The cards of a trial *)

(** A shuffled deck of at least seven cards deals its first two cards to the
    opponent and the next five to the board. *)
Lemma deal_shape (deck : list Card) :
  (7 <= length deck)%nat ->
  exists d0 d1 b0 b1 b2 b3 b4 rest,
    deck = [d0; d1] ++ [b0; b1; b2; b3; b4] ++ rest /\
    deal deck = Some ([d0; d1], [b0; b1; b2; b3; b4]).
Proof.
  intros H.
  destruct deck as [|d0 [|d1 [|b0 [|b1 [|b2 [|b3 [|b4 rest]]]]]]];
    simpl in H; try lia.
  exists d0, d1, b0, b1, b2, b3, b4, rest. split; reflexivity.
Qed.

Lemma shuffled_length (hero deck : list Card) :
  length hero = 2%nat -> Permutation (buildDeck hero) deck ->
  (7 <= length deck)%nat.
Proof.
  intros Hlen HP. rewrite <- (Permutation_length HP), buildDeck_filter.
  pose proof (filter_length (not_excluded hero) all_cards) as Hsplit.
  change (length all_cards) with 52%nat in Hsplit.
  assert (length (filter (fun c => negb (not_excluded hero c)) all_cards) <= 2)%nat.
  { rewrite <- Hlen. apply NoDup_incl_length.
    - apply NoDup_filter, all_cards_NoDup.
    - intros c Hc. apply filter_In in Hc as [_ Hc].
      apply negb_true_iff in Hc. unfold not_excluded in Hc.
      apply negb_false_iff in Hc. now apply excluded_iff. }
  lia.
Qed.

Lemma dealt_cards (hero deck : list Card) :
  length hero = 2%nat -> NoDup hero ->
  Permutation (buildDeck hero) deck ->
  exists oppHand board,
    deal deck = Some (oppHand, board) /\
    length oppHand = 2%nat /\ length board = 5%nat /\
    NoDup (hero ++ oppHand ++ board) /\
    incl (oppHand ++ board) (buildDeck hero).
Proof.
  intros Hlen Hnd HP.
  destruct (deal_shape deck (shuffled_length hero deck Hlen HP))
    as (d0 & d1 & b0 & b1 & b2 & b3 & b4 & rest & -> & Hdeal).
  exists [d0; d1], [b0; b1; b2; b3; b4].
  split; [exact Hdeal|]. split; [reflexivity|]. split; [reflexivity|].
  assert (NoDup (([d0; d1] ++ [b0; b1; b2; b3; b4]) ++ rest)) as Hdeck.
  { rewrite <- app_assoc. eapply Permutation_NoDup; [exact HP|].
    apply buildDeck_NoDup. }
  assert (incl ([d0; d1] ++ [b0; b1; b2; b3; b4]) (buildDeck hero)) as Hincl.
  { intros c Hc. eapply Permutation_in; [symmetry; exact HP|].
    rewrite app_assoc. apply in_or_app. now left. }
  split; [|exact Hincl].
  apply NoDup_app; [exact Hnd | now apply NoDup_app_remove_r in Hdeck |].
  intros c Hc Hc'. apply Hincl, buildDeck_In in Hc'. tauto.
Qed.

Lemma bestHandValue_defined (seven : list Card) :
  length seven = 7%nat ->
  Forall (fun c => In (rank c) RANKS) seven ->
  exists best, bestHandValue seven = Some best.
Proof.
  intros Hlen Hr. rewrite (bestHandValue_unrolled seven Hlen).
  rewrite (mapM_total evaluate5CardHand
             (fun five => match evaluate5CardHand five with
                          | Some v => v
                          | None => []
                          end)).
  - eexists. reflexivity.
  - apply Forall_forall. intros five Hin.
    destruct (combs_spec (fun c => In (rank c) RANKS) 5 seven five Hin)
      as (H5 & _ & Hv).
    destruct (evaluate_shape five H5 (Hv Hr)) as (c & t & -> & _).
    reflexivity.
Qed.

Lemma trial_outcome_unique (hero deck : list Card) (o o' : Outcome) :
  trial_outcome hero deck o -> trial_outcome hero deck o' -> o = o'.
Proof.
  intros (opp & board & hv & ov & Hd & Hh & Ho & H)
         (opp' & board' & hv' & ov' & Hd' & Hh' & Ho' & H').
  rewrite Hd in Hd'. injection Hd' as <- <-.
  rewrite Hh in Hh'. injection Hh' as <-.
  rewrite Ho in Ho'. injection Ho' as <-.
  destruct o, o'; try reflexivity; subst;
    try (exfalso; tauto);
    try (exfalso; now apply (lex_lt_irrefl ov));
    try (exfalso; now apply (lex_lt_irrefl hv)).
Qed.

(** One trial on a shuffle of the deck classifies the two best values and
    counts the outcome. *)
Lemma trial_spec (hero deck : list Card) (t : Tally) :
  valid_hand 2 hero ->
  Permutation (buildDeck hero) deck ->
  exists o, trial_outcome hero deck o /\
            trial hero deck t = Some (record_outcome t o).
Proof.
  intros V HP. pose proof (valid_ranks 2 hero V) as Hr.
  destruct V as (Hlen & Hnd & _).
  destruct (dealt_cards hero deck Hlen Hnd HP)
    as (opp & board & Hdeal & Hopp & Hboard & _ & Hincl).
  assert (Forall (fun c => In (rank c) RANKS) (opp ++ board)) as Hdealt.
  { apply Forall_forall. intros c Hc. now apply Hincl, buildDeck_In in Hc as [[]]. }
  destruct (bestHandValue_defined (hero ++ board)) as (hv & Hh).
  { rewrite length_app. lia. }
  { apply Forall_app. split; [exact Hr|].
    apply Forall_app in Hdealt. tauto. }
  destruct (bestHandValue_defined (opp ++ board)) as (ov & Ho).
  { rewrite length_app. lia. }
  { exact Hdealt. }
  unfold trial. rewrite Hdeal. cbn [bind fst snd]. rewrite Hh, Ho. cbn [bind].
  unfold vector_gtb.
  destruct (lexicographical_compare ov hv) eqn:Egt.
  - exists Win. split; [|reflexivity].
    exists opp, board, hv, ov. repeat split; try assumption.
    now apply lexicographical_compare_spec.
  - assert (~ lex_lt ov hv) as Hgt
        by (rewrite <- lexicographical_compare_spec, Egt; discriminate).
    destruct (vector_eqb hv ov) eqn:Eeq.
    + exists Tie. split; [|reflexivity].
      exists opp, board, hv, ov. repeat split; try assumption.
      now apply vector_eqb_spec.
    + exists Loss. split; [|reflexivity].
      exists opp, board, hv, ov. repeat split; try assumption.
      rewrite <- vector_eqb_spec, Eeq. discriminate.
Qed.

Lemma count_outcome_cons (o x : Outcome) (l : list Outcome) :
  count_outcome o (x :: l)
  = (if outcome_eqb o x then 1 else 0) + count_outcome o l.
Proof.
  unfold count_outcome. cbn [filter].
  destruct (outcome_eqb o x); [|reflexivity].
  cbn [length]. lia.
Qed.

Lemma count_outcome_total (l : list Outcome) :
  count_outcome Win l + count_outcome Tie l + count_outcome Loss l
  = Z.of_nat (length l).
Proof.
  induction l as [|x l IH]; [reflexivity|].
  rewrite !count_outcome_cons. cbn [length]. destruct x; cbn [outcome_eqb]; lia.
Qed.

Lemma count_outcome_nonneg (o : Outcome) (l : list Outcome) :
  0 <= count_outcome o l.
Proof. unfold count_outcome. lia. Qed.

Lemma tally_of_outcomes (outcomes : list Outcome) :
  forall t : Tally,
    fold_left record_outcome outcomes t
    = mkTally (wins t + count_outcome Win outcomes)
              (ties t + count_outcome Tie outcomes)
              (losses t + count_outcome Loss outcomes).
Proof.
  induction outcomes as [|o l IH]; intros [w ti lo]; cbn [fold_left].
  - cbn. f_equal; lia.
  - rewrite IH, !count_outcome_cons.
    destruct o; cbn [record_outcome outcome_eqb wins ties losses]; f_equal; lia.
Qed.

Lemma equity_bounds (outcomes : list Outcome) (n : Z) :
  1 <= n ->
  count_outcome Win outcomes + count_outcome Tie outcomes
  + count_outcome Loss outcomes = n ->
  (0 <= equity_of outcomes n)%Q /\ (equity_of outcomes n <= 1)%Q.
Proof.
  intros Hn Htotal. unfold equity_of.
  pose proof (count_outcome_nonneg Win outcomes) as Hw.
  pose proof (count_outcome_nonneg Tie outcomes) as Ht.
  pose proof (count_outcome_nonneg Loss outcomes) as Hl.
  revert Htotal Hw Ht Hl.
  generalize (count_outcome Win outcomes) as w,
             (count_outcome Tie outcomes) as t,
             (count_outcome Loss outcomes) as l.
  intros w t l Htotal Hw Ht Hl.
  assert (0 < inject_Z n)%Q as Hpos by (unfold Qlt; cbn; lia).
  split.
  - apply Qle_shift_div_l; [exact Hpos|].
    unfold Qle, Qplus, Qmult, inject_Z. cbn [Qnum Qden Pos.mul]. lia.
  - apply Qle_shift_div_r; [exact Hpos|].
    unfold Qle, Qplus, Qmult, inject_Z. cbn [Qnum Qden Pos.mul]. lia.
Qed.

(** ** The sampling loop *)

Section Run.
Context {Gen : Type}.
Variable shuffle : Gen -> list Card -> list Card * Gen.
Variable round : Q -> Q.
(** [std::shuffle] permutes the deck. *)
Hypothesis shuffle_perm :
  forall (g : Gen) (l : list Card), Permutation l (fst (shuffle g l)).
(** Rounding to the nearest [double] is monotone and keeps the [double]s
    [k / 2] with [|k| <= 2^53]. *)
Hypothesis round_monotone :
  forall a b : Q, (a <= b)%Q -> (round a <= round b)%Q.
Hypothesis round_exact :
  forall k : Z, - 2 ^ 53 <= k <= 2 ^ 53 -> (round (k # 2) == k # 2)%Q.

Lemma round_eq (a b : Q) : (a == b)%Q -> (round a == round b)%Q.
Proof.
  intros E. apply Qle_antisym; apply round_monotone; rewrite E; apply Qle_refl.
Qed.

Lemma round_half (q : Q) (k : Z) :
  - 2 ^ 53 <= k <= 2 ^ 53 -> (q == k # 2)%Q -> (round q == q)%Q.
Proof.
  intros Hk E. rewrite (round_eq q (k # 2) E), E. now apply round_exact.
Qed.

(** [wins + 0.5 * ties] is computed without rounding error. *)
Lemma numerator_exact (w t : Z) :
  0 <= w <= INT_MAX -> 0 <= t <= INT_MAX ->
  (double_add round (double_of_int w)
     (double_mul round (1 # 2) (double_of_int t))
   == inject_Z w + (1 # 2) * inject_Z t)%Q.
Proof.
  unfold INT_MAX. intros Hw Ht. unfold double_add, double_mul, double_of_int.
  assert (round ((1 # 2) * inject_Z t) == (1 # 2) * inject_Z t)%Q as E.
  { apply (round_half _ t); [lia|].
    unfold Qeq, Qmult, inject_Z. cbn [Qnum Qden Pos.mul]. lia. }
  rewrite (round_eq _ (inject_Z w + (1 # 2) * inject_Z t)).
  - apply (round_half _ (2 * w + t)); [lia|].
    unfold Qeq, Qplus, Qmult, inject_Z. cbn [Qnum Qden Pos.mul]. lia.
  - now rewrite E.
Qed.

Lemma shuffled_decks_perm (n : nat) (hero : list Card) :
  forall (g : Gen) (deck : list Card),
    In deck (shuffled_decks shuffle n hero g) ->
    Permutation (buildDeck hero) deck.
Proof.
  induction n as [|n IH]; intros g deck Hin; [destruct Hin|].
  cbn [shuffled_decks] in Hin. destruct Hin as [<-|Hin].
  - apply shuffle_perm.
  - eapply IH, Hin.
Qed.

Lemma shuffled_decks_length (n : nat) (hero : list Card) :
  forall g : Gen, length (shuffled_decks shuffle n hero g) = n.
Proof. induction n as [|n IH]; intros g; simpl; auto. Qed.

(** The loop plays the trials in turn and tallies their outcomes. *)
Lemma trials_spec (hero : list Card) (n : nat) :
  valid_hand 2 hero ->
  forall (g : Gen) (t : Tally),
  exists outcomes g',
    Forall2 (trial_outcome hero) (shuffled_decks shuffle n hero g) outcomes /\
    trials shuffle n hero g t = Some (fold_left record_outcome outcomes t, g').
Proof.
  intros V. induction n as [|n IH]; intros g t.
  - exists [], g. split; [constructor | reflexivity].
  - cbn [trials shuffled_decks].
    destruct (trial_spec hero (fst (shuffle g (buildDeck hero))) t V
                (shuffle_perm g (buildDeck hero))) as (o & Ho & Ht).
    rewrite Ht. cbn [bind].
    destruct (IH (snd (shuffle g (buildDeck hero))) (record_outcome t o))
      as (outcomes & g' & Hall & Hrun).
    exists (o :: outcomes), g'. split; [now constructor | exact Hrun].
Qed.

Lemma simulate_spec (sim : EquitySimulator) (seed : Gen) :
  valid_hand 2 (heroHand sim) ->
  1 <= simulations sim <= INT_MAX ->
  exists outcomes equity,
    Forall2 (trial_outcome (heroHand sim))
      (shuffled_decks shuffle (Z.to_nat (simulations sim)) (heroHand sim) seed)
      outcomes /\
    count_outcome Win outcomes + count_outcome Tie outcomes
    + count_outcome Loss outcomes = simulations sim /\
    simulate shuffle round sim seed = Some (Finite equity) /\
    (equity == round (equity_of outcomes (simulations sim)))%Q.
Proof.
  intros V HN.
  destruct (trials_spec (heroHand sim) (Z.to_nat (simulations sim)) V seed
              (mkTally 0 0 0)) as (outcomes & g' & Hall & Hrun).
  assert (count_outcome Win outcomes + count_outcome Tie outcomes
          + count_outcome Loss outcomes = simulations sim) as Htotal.
  { rewrite count_outcome_total, <- (Forall2_length Hall),
      shuffled_decks_length. lia. }
  exists outcomes. eexists.
  split; [exact Hall|]. split; [exact Htotal|].
  unfold simulate. rewrite Hrun. cbn [bind fst].
  rewrite tally_of_outcomes. cbn [wins ties losses]. rewrite !Z.add_0_l.
  rewrite Htotal.
  destruct (Z.eqb_spec (simulations sim) 0) as [E|_]; [lia|].
  split; [reflexivity|].
  unfold double_div, equity_of, double_of_int at 3. apply round_eq.
  pose proof (count_outcome_nonneg Win outcomes).
  pose proof (count_outcome_nonneg Tie outcomes).
  pose proof (count_outcome_nonneg Loss outcomes).
  rewrite numerator_exact by lia. reflexivity.
Qed.

(** C4. With a valid two-card hero hand and a trial count [N >= 1] (an
    [int]), every trial has exactly one outcome: a win when the hero's best
    value is strictly greater than the opponent's, a tie when the two
    values are equal, a loss otherwise.  The [N] outcomes add up to [N],
    and [simulate] returns the [double] nearest to
    (wins + 0.5 * ties) / N over them. *)
Theorem simulate_counts_outcomes (sim : EquitySimulator) (seed : Gen) :
  valid_hand 2 (heroHand sim) ->
  1 <= simulations sim <= INT_MAX ->
  exists outcomes equity,
    Forall2 (trial_outcome (heroHand sim))
      (shuffled_decks shuffle (Z.to_nat (simulations sim)) (heroHand sim) seed)
      outcomes /\
    (forall deck o o',
        trial_outcome (heroHand sim) deck o ->
        trial_outcome (heroHand sim) deck o' -> o = o') /\
    Z.of_nat (length outcomes) = simulations sim /\
    count_outcome Win outcomes + count_outcome Tie outcomes
    + count_outcome Loss outcomes = simulations sim /\
    simulate shuffle round sim seed = Some (Finite equity) /\
    (equity ==
     round ((inject_Z (count_outcome Win outcomes)
             + (1 # 2) * inject_Z (count_outcome Tie outcomes))
            / inject_Z (simulations sim)))%Q.
Proof.
  intros V HN.
  destruct (simulate_spec sim seed V HN)
    as (outcomes & equity & Hall & Htotal & Hsim & Heq).
  exists outcomes, equity. split; [exact Hall|].
  split; [intros deck o o'; apply trial_outcome_unique|].
  split; [now rewrite <- count_outcome_total|].
  split; [exact Htotal|]. split; [exact Hsim | exact Heq].
Qed.

(** C5. With a valid two-card hero hand and a trial count [N >= 1] (an
    [int]), [simulate] returns a number between 0 and 1. *)
Theorem simulate_in_unit_interval (sim : EquitySimulator) (seed : Gen) :
  valid_hand 2 (heroHand sim) ->
  1 <= simulations sim <= INT_MAX ->
  exists equity : Q,
    simulate shuffle round sim seed = Some (Finite equity) /\
    (0 <= equity)%Q /\ (equity <= 1)%Q.
Proof.
  intros V HN.
  destruct (simulate_spec sim seed V HN)
    as (outcomes & equity & _ & Htotal & Hsim & Heq).
  exists equity. split; [exact Hsim|].
  destruct (equity_bounds outcomes (simulations sim)) as [H0 H1];
    [lia | exact Htotal |].
  rewrite Heq. split.
  - apply Qle_trans with (round (0 # 2)).
    + rewrite (round_exact 0) by lia. now unfold Qle.
    + apply round_monotone. apply Qle_trans with 0%Q; [now unfold Qle | exact H0].
  - apply Qle_trans with (round (2 # 2)).
    + apply round_monotone. apply Qle_trans with 1%Q; [exact H1 | now unfold Qle].
    + rewrite (round_exact 2) by lia. now unfold Qle.
Qed.

(** The loop of [k + m] trials is the loop of [k] trials followed by the
    loop of [m] trials, from the generator state and the tallies reached. *)
Lemma trials_split (hero : list Card) (k m : nat) :
  forall (g : Gen) (t : Tally),
    trials shuffle (k + m) hero g t
    = r <- trials shuffle k hero g t ;; trials shuffle m hero (snd r) (fst r).
Proof.
  induction k as [|k IH]; intros g t; [reflexivity|].
  cbn [Nat.add trials].
  destruct (trial hero (fst (shuffle g (buildDeck hero))) t) as [t'|];
    [|reflexivity].
  cbn [bind]. apply IH.
Qed.

(** What one trial does on a shuffle of the deck: the cards it deals, the
    two sets of seven cards it evaluates and the tally it returns. *)
Lemma trial_cards (hero deck : list Card) :
  valid_hand 2 hero ->
  Permutation (buildDeck hero) deck ->
  exists oppHand board heroVal oppVal,
    deal deck = Some (oppHand, board) /\
    bestHandValue (hero ++ board) = Some heroVal /\
    bestHandValue (oppHand ++ board) = Some oppVal /\
    (forall t, trial hero deck t = Some (count_trial t heroVal oppVal)) /\
    length oppHand = 2%nat /\ length board = 5%nat /\
    NoDup (hero ++ oppHand ++ board) /\
    (forall c, In c hero -> ~ In c (oppHand ++ board)) /\
    (forall c, In c (hero ++ board) /\ In c (oppHand ++ board)
               <-> In c board).
Proof.
  intros V HP. pose proof (valid_ranks 2 hero V) as Hr.
  destruct V as (Hlen & Hnd & _).
  destruct (dealt_cards hero deck Hlen Hnd HP)
    as (opp & board & Hdeal & Hopp & Hboard & Hall & Hincl).
  assert (Forall (fun c => In (rank c) RANKS) (opp ++ board)) as Hdealt.
  { apply Forall_forall. intros c Hc. now apply Hincl, buildDeck_In in Hc as [[]]. }
  destruct (bestHandValue_defined (hero ++ board)) as (hv & Hh).
  { rewrite length_app. lia. }
  { apply Forall_app. split; [exact Hr|].
    apply Forall_app in Hdealt. tauto. }
  destruct (bestHandValue_defined (opp ++ board)) as (ov & Ho).
  { rewrite length_app. lia. }
  { exact Hdealt. }
  assert (forall c, In c hero -> ~ In c (opp ++ board)) as Hdisj.
  { intros c Hc Hc'. apply Hincl, buildDeck_In in Hc'. tauto. }
  exists opp, board, hv, ov.
  split; [exact Hdeal|]. split; [exact Hh|]. split; [exact Ho|]. split.
  { intros t. unfold trial, count_trial. rewrite Hdeal. cbn [bind fst snd].
    rewrite Hh, Ho. cbn [bind].
    destruct (vector_gtb hv ov); [reflexivity|].
    now destruct (vector_eqb hv ov). }
  split; [exact Hopp|]. split; [exact Hboard|]. split; [exact Hall|].
  split; [exact Hdisj|].
  intros c. split.
  - intros [Hc Hc']. apply in_app_or in Hc as [Hc|Hc]; [|exact Hc].
    now destruct (Hdisj c Hc).
  - intros Hb. split; apply in_or_app; now right.
Qed.

(** C7. In a run of [simulate] on a valid two-card hero hand, take any trial
    of the loop, the one that follows [k] trials.  The loop has reached
    tallies [tally] and a generator state [g]; the trial shuffles with [g]
    the deck built without the hero's cards, deals two opponent cards and
    five board cards from it, evaluates the hero's cards with the board and
    the opponent's cards with the board, counts the comparison, and the loop
    goes on from there to the final tally, from which [simulate] computes
    its result.  The hero's two cards and the seven cards dealt are nine
    different cards, and a card is in both seven-card sets exactly when it is
    on the board. *)
Theorem trial_cards_distinct (sim : EquitySimulator) (seed : Gen) (k : nat) :
  valid_hand 2 (heroHand sim) ->
  (k < Z.to_nat (simulations sim))%nat ->
  exists tally g oppHand board heroVal oppVal final,
    trials shuffle k (heroHand sim) seed (mkTally 0 0 0) = Some (tally, g) /\
    deal (fst (shuffle g (buildDeck (heroHand sim)))) = Some (oppHand, board) /\
    bestHandValue (heroHand sim ++ board) = Some heroVal /\
    bestHandValue (oppHand ++ board) = Some oppVal /\
    (forall t,
        trial (heroHand sim) (fst (shuffle g (buildDeck (heroHand sim)))) t
        = Some (count_trial t heroVal oppVal)) /\
    trials shuffle (S k) (heroHand sim) seed (mkTally 0 0 0)
    = Some (count_trial tally heroVal oppVal,
            snd (shuffle g (buildDeck (heroHand sim)))) /\
    trials shuffle (Z.to_nat (simulations sim)) (heroHand sim) seed
      (mkTally 0 0 0)
    = trials shuffle (Z.to_nat (simulations sim) - S k) (heroHand sim)
        (snd (shuffle g (buildDeck (heroHand sim))))
        (count_trial tally heroVal oppVal) /\
    trials shuffle (Z.to_nat (simulations sim)) (heroHand sim) seed
      (mkTally 0 0 0) = Some final /\
    simulate shuffle round sim seed = Some (equity_of_tally round (fst final)) /\
    length oppHand = 2%nat /\ length board = 5%nat /\
    NoDup (heroHand sim ++ oppHand ++ board) /\
    (forall c, In c (heroHand sim) -> ~ In c (oppHand ++ board)) /\
    (forall c, In c (heroHand sim ++ board) /\ In c (oppHand ++ board)
               <-> In c board).
Proof.
  intros V Hk.
  destruct (trials_spec (heroHand sim) k V seed (mkTally 0 0 0))
    as (outcomes & g & _ & Hrun).
  destruct (trial_cards (heroHand sim)
              (fst (shuffle g (buildDeck (heroHand sim)))) V
              (shuffle_perm g (buildDeck (heroHand sim))))
    as (opp & board & hv & ov & Hdeal & Hh & Ho & Htrial & Hrest).
  destruct (trials_spec (heroHand sim) (Z.to_nat (simulations sim)) V seed
              (mkTally 0 0 0)) as (all & g' & _ & Hfinal).
  assert (forall m,
             trials shuffle (k + S m) (heroHand sim) seed (mkTally 0 0 0)
             = trials shuffle m (heroHand sim)
                 (snd (shuffle g (buildDeck (heroHand sim))))
                 (count_trial (fold_left record_outcome outcomes (mkTally 0 0 0))
                    hv ov)) as Hnext.
  { intros m. rewrite trials_split, Hrun. cbn [bind fst snd trials].
    now rewrite Htrial. }
  eexists _, g, opp, board, hv, ov, _.
  split; [exact Hrun|]. split; [exact Hdeal|]. split; [exact Hh|].
  split; [exact Ho|]. split; [exact Htrial|]. split.
  { replace (S k) with (k + 1)%nat by lia. now rewrite Hnext. }
  split.
  { replace (Z.to_nat (simulations sim))
      with (k + S (Z.to_nat (simulations sim) - S k))%nat at 1 by lia.
    apply Hnext. }
  split; [exact Hfinal|]. split; [|exact Hrest].
  unfold simulate, equity_of_tally. rewrite Hfinal. cbn [bind fst].
  now destruct (_ =? 0).
Qed.
End Run.

(** ** Examples of runs *)

Lemma cut_shuffle_perm (g : nat) (l : list Card) :
  Permutation l (fst (cut_shuffle g l)).
Proof.
  cbn [cut_shuffle fst]. rewrite Permutation_app_comm.
  now rewrite firstn_skipn.
Qed.

Lemma round_to_grid_monotone (a b : Q) :
  (a <= b)%Q -> (round_to_grid a <= round_to_grid b)%Q.
Proof.
  intros H. unfold round_to_grid.
  assert (Qfloor (a * inject_Z (Z.pos grid) + (1 # 2))
          <= Qfloor (b * inject_Z (Z.pos grid) + (1 # 2))) as Hfloor.
  { apply Qfloor_resp_le, Qplus_le_compat; [|apply Qle_refl].
    apply Qmult_le_compat_r; [exact H | now unfold Qle]. }
  unfold Qle. cbn [Qnum Qden].
  apply Z.mul_le_mono_nonneg_r; [lia | exact Hfloor].
Qed.

Lemma round_to_grid_exact (k : Z) :
  - 2 ^ 53 <= k <= 2 ^ 53 -> (round_to_grid (k # 2) == k # 2)%Q.
Proof.
  intros _. unfold round_to_grid, Qfloor, Qplus, Qmult, inject_Z.
  cbn [Qnum Qden Pos.mul].
  assert ((k * Z.pos grid * 2 + 1 * 2) / 4 = k * 576460752303423488) as ->.
  { symmetry. apply (Z.div_unique _ _ _ 2); unfold grid; lia. }
  unfold Qeq, grid. cbn [Qnum Qden]. lia.
Qed.

Lemma simulate_counts_outcomes_witness :
  exists outcomes equity,
    Forall2 (trial_outcome (heroHand (newEquitySimulator "AA" 3)))
      (shuffled_decks cut_shuffle
         (Z.to_nat (simulations (newEquitySimulator "AA" 3)))
         (heroHand (newEquitySimulator "AA" 3)) 0%nat)
      outcomes /\
    (forall deck o o',
        trial_outcome (heroHand (newEquitySimulator "AA" 3)) deck o ->
        trial_outcome (heroHand (newEquitySimulator "AA" 3)) deck o' ->
        o = o') /\
    Z.of_nat (length outcomes) = simulations (newEquitySimulator "AA" 3) /\
    count_outcome Win outcomes + count_outcome Tie outcomes
    + count_outcome Loss outcomes = simulations (newEquitySimulator "AA" 3) /\
    simulate cut_shuffle round_to_grid (newEquitySimulator "AA" 3) 0%nat
    = Some (Finite equity) /\
    (equity ==
     round_to_grid
       ((inject_Z (count_outcome Win outcomes)
         + (1 # 2) * inject_Z (count_outcome Tie outcomes))
        / inject_Z (simulations (newEquitySimulator "AA" 3))))%Q.
Proof.
  apply (simulate_counts_outcomes cut_shuffle round_to_grid cut_shuffle_perm
           round_to_grid_monotone round_to_grid_exact
           (newEquitySimulator "AA" 3) 0%nat).
  - apply valid_handb_spec. reflexivity.
  - cbn. unfold INT_MAX. lia.
Defined.

Lemma simulate_in_unit_interval_witness :
  exists equity : Q,
    simulate cut_shuffle round_to_grid (newEquitySimulator "AKs" 4) 5%nat
    = Some (Finite equity) /\
    (0 <= equity)%Q /\ (equity <= 1)%Q.
Proof.
  apply (simulate_in_unit_interval cut_shuffle round_to_grid cut_shuffle_perm
           round_to_grid_monotone round_to_grid_exact
           (newEquitySimulator "AKs" 4) 5%nat).
  - apply valid_handb_spec. reflexivity.
  - cbn. unfold INT_MAX. lia.
Defined.

Lemma trial_cards_distinct_witness :
  exists tally g oppHand board heroVal oppVal final,
    trials cut_shuffle 1 (heroHand (newEquitySimulator "AKo" 3)) 3%nat
      (mkTally 0 0 0) = Some (tally, g) /\
    deal (fst (cut_shuffle g
                 (buildDeck (heroHand (newEquitySimulator "AKo" 3)))))
    = Some (oppHand, board) /\
    bestHandValue (heroHand (newEquitySimulator "AKo" 3) ++ board)
    = Some heroVal /\
    bestHandValue (oppHand ++ board) = Some oppVal /\
    (forall t,
        trial (heroHand (newEquitySimulator "AKo" 3))
          (fst (cut_shuffle g
                  (buildDeck (heroHand (newEquitySimulator "AKo" 3))))) t
        = Some (count_trial t heroVal oppVal)) /\
    trials cut_shuffle 2 (heroHand (newEquitySimulator "AKo" 3)) 3%nat
      (mkTally 0 0 0)
    = Some (count_trial tally heroVal oppVal,
            snd (cut_shuffle g
                   (buildDeck (heroHand (newEquitySimulator "AKo" 3))))) /\
    trials cut_shuffle (Z.to_nat (simulations (newEquitySimulator "AKo" 3)))
      (heroHand (newEquitySimulator "AKo" 3)) 3%nat (mkTally 0 0 0)
    = trials cut_shuffle
        (Z.to_nat (simulations (newEquitySimulator "AKo" 3)) - 2)
        (heroHand (newEquitySimulator "AKo" 3))
        (snd (cut_shuffle g
                (buildDeck (heroHand (newEquitySimulator "AKo" 3)))))
        (count_trial tally heroVal oppVal) /\
    trials cut_shuffle (Z.to_nat (simulations (newEquitySimulator "AKo" 3)))
      (heroHand (newEquitySimulator "AKo" 3)) 3%nat (mkTally 0 0 0)
    = Some final /\
    simulate cut_shuffle round_to_grid (newEquitySimulator "AKo" 3) 3%nat
    = Some (equity_of_tally round_to_grid (fst final)) /\
    length oppHand = 2%nat /\ length board = 5%nat /\
    NoDup (heroHand (newEquitySimulator "AKo" 3) ++ oppHand ++ board) /\
    (forall c, In c (heroHand (newEquitySimulator "AKo" 3)) ->
               ~ In c (oppHand ++ board)) /\
    (forall c, In c (heroHand (newEquitySimulator "AKo" 3) ++ board) /\
               In c (oppHand ++ board)
               <-> In c board).
Proof.
  apply (trial_cards_distinct cut_shuffle round_to_grid cut_shuffle_perm
           (newEquitySimulator "AKo" 3) 3%nat 1%nat).
  - apply valid_handb_spec. reflexivity.
  - cbn. lia.
Defined.

Example simulate_AA :
  simulate cut_shuffle round_to_grid (newEquitySimulator "AA" 3) 0%nat
  = Some (Finite (576460752303423488 # grid)).
Proof. vm_compute. reflexivity. Qed.

(** Seven cards that hold a straight flush are valued as one, whatever the
    other two cards are. *)
Example best_of_seven_straight_flush :
  bestHandValue (hand "9hThJhQhKh2c2d") = Some [9; 13] /\
  bestHandValue (hand "AcAd9hThJhQhKh") = Some [9; 13].
Proof. split; vm_compute; reflexivity. Qed.

(** A full house beats two pair; the kickers order two pairs of aces. *)
Example full_house_beats_two_pair :
  evaluate5CardHand (hand "2h2d2c5s5h") = Some [7; 2; 5] /\
  evaluate5CardHand (hand "AhAdKcKsQh") = Some [3; 14; 13; 12] /\
  isBetterHand [7; 2; 5] [3; 14; 13; 12] = true.
Proof. repeat split; vm_compute; reflexivity. Qed.

Example kickers_order_pairs :
  isBetterHand [2; 14; 13; 12; 11] [2; 14; 4; 3; 2] = true.
Proof. reflexivity. Qed.

(** ** Parsing *)

Lemma recognized_rank_spec (r : ascii) : recognized_rank r = true <-> In r RANKS.
Proof. apply in_existsb_ascii. Qed.

Lemma tolower_s (c : ascii) :
  Ascii.eqb (tolower c) "s" = true <-> c = "s"%char \/ c = "S"%char.
Proof.
  split.
  - destruct c as [[] [] [] [] [] [] [] []]; cbn; intros H;
      first [discriminate H | now left | now right].
  - intros [->| ->]; reflexivity.
Qed.

Lemma two_cards_valid (c1 c2 : Card) :
  valid_card c1 -> valid_card c2 -> c1 <> c2 -> valid_hand 2 [c1; c2].
Proof.
  intros V1 V2 Hne. split; [reflexivity|]. split.
  - constructor; [intros [E|[]]; now apply Hne|].
    constructor; [intros [] | constructor].
  - constructor; [exact V1|]. constructor; [exact V2 | constructor].
Qed.

(** C8, as the specification states it, fails: the notation [XYo] names no
    rank, yet parsing returns two cards for it, and they are no cards of the
    deck. *)
Lemma parse_contract_fails : ~ parse_contract "XYo".
Proof.
  intros [Hrefused _]. specialize (Hrefused eq_refl). discriminate Hrefused.
Qed.

(** C8, amended.  [parseHand] reports no error and checks no character.
    A string of another length than 2 or 3 yields the empty hand.  A string
    of length 2 or 3 yields two cards that carry its first two characters as
    ranks, whatever they are: with the suits [h] and [d], or with [h] twice
    when the third character is [s] or [S]; every other third character is
    read as offsuit.  When the notation is well formed and is not a pair in
    the suited style, the two cards are valid and different. *)
Theorem parseHand_spec (handStr : string) :
  (String.length handStr <> 2%nat -> String.length handStr <> 3%nat ->
   parseHand handStr = []) /\
  (forall r1 r2,
      handStr = String r1 (String r2 EmptyString) ->
      parseHand handStr = [mkCard r1 "h"; mkCard r2 "d"]) /\
  (forall r1 r2 style,
      handStr = String r1 (String r2 (String style EmptyString)) ->
      parseHand handStr
      = if Ascii.eqb (tolower style) "s"
        then [mkCard r1 "h"; mkCard r2 "h"]
        else [mkCard r1 "h"; mkCard r2 "d"]) /\
  (well_formed handStr = true -> suited_pair handStr = false ->
   valid_hand 2 (parseHand handStr)).
Proof.
  split; [|split; [|split]].
  - destruct handStr as [|r1 [|r2 [|st [|x t]]]]; cbn; intros H2 H3;
      first [reflexivity | now destruct H2 | now destruct H3].
  - now intros r1 r2 ->.
  - now intros r1 r2 style ->.
  - destruct handStr as [|r1 [|r2 [|st [|x t]]]]; cbn [well_formed suited_pair];
      try discriminate.
    + intros Hw _. apply andb_prop in Hw as [H1 H2].
      apply recognized_rank_spec in H1, H2.
      cbn [parseHand]. apply two_cards_valid.
      * split; [exact H1 | cbn; tauto].
      * split; [exact H2 | cbn; tauto].
      * discriminate.
    + intros Hw Hs. apply andb_prop in Hw as [Hw _].
      apply andb_prop in Hw as [H1 H2].
      apply recognized_rank_spec in H1, H2.
      cbn [parseHand]. destruct (Ascii.eqb (tolower st) "s").
      * rewrite andb_true_r in Hs. apply Ascii.eqb_neq in Hs.
        apply two_cards_valid.
        -- split; [exact H1 | cbn; tauto].
        -- split; [exact H2 | cbn; tauto].
        -- congruence.
      * apply two_cards_valid.
        -- split; [exact H1 | cbn; tauto].
        -- split; [exact H2 | cbn; tauto].
        -- discriminate.
Qed.

(** Notations that the parser does not refuse. *)
Example parse_no_rank :
  parseHand "XYo" = [mkCard "X" "h"; mkCard "Y" "d"] /\
  simulate cut_shuffle round_to_grid (newEquitySimulator "XYo" 1) 0%nat = None.
Proof. split; vm_compute; reflexivity. Qed.

Example parse_suited_pair :
  well_formed "AAs" = true /\
  parseHand "AAs" = [mkCard "A" "h"; mkCard "A" "h"].
Proof. split; reflexivity. Qed.

Example parse_wrong_length :
  parseHand "A" = [] /\ parseHand "AKso" = [] /\
  simulate cut_shuffle round_to_grid (newEquitySimulator "A" 1) 0%nat = None.
Proof. repeat split; vm_compute; reflexivity. Qed.

Example parse_unknown_style :
  parseHand "AKx" = [mkCard "A" "h"; mkCard "K" "d"].
Proof. reflexivity. Qed.

(** * Further properties of the code *)

(** ** The evaluator on arbitrary cards *)

Lemma mapM_fails {A B : Type} (f : A -> option B) (l : list A) :
  Exists (fun a => f a = None) l -> mapM f l = None.
Proof.
  induction 1 as [a t Ha | a t _ IH]; simpl.
  - now rewrite Ha.
  - rewrite IH. now destruct (f a).
Qed.

Lemma map_at_In (m : list (ascii * Z)) (k : ascii) (v : Z) :
  map_at m k = Some v -> In k (map fst m).
Proof.
  induction m as [|[k' v'] t IH]; simpl; [discriminate|].
  destruct (Ascii.eqb_spec k k') as [->|_]; [now left | right; auto].
Qed.

Lemma unknown_rank (r : ascii) : ~ In r RANKS -> map_at RANK_VALUES r = None.
Proof.
  intros H. destruct (map_at RANK_VALUES r) as [v|] eqn:E; [|reflexivity].
  destruct H. exact (map_at_In RANK_VALUES r v E).
Qed.

Lemma ranks_known_or_not (h : list Card) :
  Forall (fun c => In (rank c) RANKS) h \/
  Exists (fun c => ~ In (rank c) RANKS) h.
Proof.
  destruct (Forall_Exists_dec (fun c => In (rank c) RANKS)
              (fun c => in_dec ascii_dec (rank c) RANKS) h); tauto.
Qed.

Lemma evaluate_unknown_rank (h : list Card) :
  Exists (fun c => ~ In (rank c) RANKS) h -> evaluate5CardHand h = None.
Proof.
  intros H. unfold evaluate5CardHand. rewrite mapM_fails; [reflexivity|].
  eapply Exists_impl; [|exact H]. intros c. apply unknown_rank.
Qed.

Lemma freq_incr_not_nil (v : Z) (m : list (Z * Z)) : freq_incr v m <> [].
Proof.
  destruct m as [|[k c] t]; simpl; [discriminate|].
  destruct (v =? k); [discriminate|]. destruct (v <? k); discriminate.
Qed.

Lemma count_pairs_not_nil (values : list Z) :
  values <> [] -> count_pairs values <> [].
Proof.
  intros Hne. unfold count_pairs. intros E.
  apply (f_equal (@length _)) in E.
  rewrite sort_by_length, length_map in E.
  assert (forall l m, m <> [] -> fold_left (fun m v => freq_incr v m) l m <> [])
    as Hfold.
  { induction l as [|x l IH]; intros m Hm; [exact Hm|].
    cbn [fold_left]. apply IH, freq_incr_not_nil. }
  destruct values as [|v t]; [now destruct Hne|].
  cbn [fold_left] in E.
  apply (Hfold t (freq_incr v []) (freq_incr_not_nil v [])).
  now apply length_zero_iff_nil.
Qed.

Lemma hand_value_of_defined (values : list Z) (isFlush : bool) :
  values <> [] -> hand_value_of values isFlush <> None.
Proof.
  intros Hne. unfold hand_value_of.
  pose proof (count_pairs_not_nil values Hne) as Hcp.
  destruct (count_pairs values) as [|cp0 rest]; [now destruct Hcp|].
  cbn [nth_error bind].
  repeat match goal with
         | |- context [if ?b then _ else _] => destruct b
         end; discriminate.
Qed.

(** X1. The evaluator throws exactly on an unknown rank character: on a
    hand that is not empty, of any size, it fails if and only if some card
    carries a rank that is not one of the thirteen. *)
Theorem evaluate_fails_iff (cards : list Card) :
  cards <> [] ->
  (evaluate5CardHand cards = None <->
   Exists (fun c => ~ In (rank c) RANKS) cards).
Proof.
  intros Hne. split; [|apply evaluate_unknown_rank].
  intros E. destruct (ranks_known_or_not cards) as [Hr|Hr]; [|exact Hr].
  exfalso. unfold evaluate5CardHand in E.
  rewrite (values_of_valid cards Hr) in E. cbn [bind] in E.
  destruct cards as [|c t]; [now destruct Hne|].
  cbn [map nth_error bind] in E.
  apply (hand_value_of_defined _ _) in E; [exact E|].
  intros Hnil. apply (f_equal (@length _)) in Hnil.
  rewrite sort_by_length in Hnil. discriminate Hnil.
Qed.

Lemma evaluate_fails_iff_witness :
  evaluate5CardHand (hand "AhKh1h") = None <->
  Exists (fun c => ~ In (rank c) RANKS) (hand "AhKh1h").
Proof.
  apply evaluate_fails_iff. discriminate.
Defined.

Lemma all_same_suit_perm (a b : list Card) :
  Permutation a b -> all_same_suit a = all_same_suit b.
Proof.
  intros HP. apply eq_true_iff_eq. rewrite !all_same_suit_iff.
  split; intros H c c' Hc Hc'; apply H;
    eapply Permutation_in; try eassumption; now symmetry.
Qed.

(** X2. The value of five cards does not depend on their order, whether
    the evaluation succeeds or throws. *)
Theorem evaluate_order_independent (a b : list Card) :
  Permutation a b -> length a = 5%nat ->
  evaluate5CardHand a = evaluate5CardHand b.
Proof.
  intros HP Hlen. destruct (ranks_known_or_not a) as [Hr|Hr].
  - now apply evaluate_perm.
  - rewrite (evaluate_unknown_rank a Hr). symmetry.
    apply evaluate_unknown_rank.
    apply Exists_exists in Hr as (c & Hc & Hbad).
    apply Exists_exists. exists c. split; [|exact Hbad].
    eapply Permutation_in; eassumption.
Qed.

Lemma evaluate_order_independent_witness :
  evaluate5CardHand (hand "Ah2d3c4s5h") = evaluate5CardHand (hand "5h4s3c2dAh").
Proof.
  apply evaluate_order_independent; [|reflexivity].
  apply (Permutation_rev (hand "Ah2d3c4s5h")).
Defined.

(** X3. The suits count only through the flush: two hands of five cards
    with the same ranks, in any order, that are both flushes or both not,
    have the same value. *)
Theorem evaluate_ranks_and_flush (a b : list Card) :
  length a = 5%nat ->
  Forall (fun c => In (rank c) RANKS) a ->
  Permutation (map rank a) (map rank b) ->
  all_same_suit a = all_same_suit b ->
  evaluate5CardHand a = evaluate5CardHand b.
Proof.
  intros Hlen Hr HP Hs.
  rewrite (evaluate_of_ranks a (map rank a)); try reflexivity.
  - rewrite (evaluate_of_ranks b (map rank a)).
    + now rewrite Hs.
    + now rewrite length_map.
    + now apply Forall_map.
    + now symmetry.
  - now rewrite length_map.
  - now apply Forall_map.
Qed.

Lemma evaluate_ranks_and_flush_witness :
  evaluate5CardHand (hand "AhAdKcQsJh") = evaluate5CardHand (hand "KdAsJcAcQh").
Proof.
  apply evaluate_ranks_and_flush; try reflexivity.
  - apply (valid_ranks 5), valid_handb_spec. reflexivity.
  - cbn. apply perm_trans with ["A"; "K"; "A"; "Q"; "J"]%char.
    + apply perm_skip, perm_swap.
    + apply perm_trans with ["K"; "A"; "A"; "Q"; "J"]%char; [apply perm_swap|].
      do 2 apply perm_skip.
      apply perm_trans with ["A"; "J"; "Q"]%char; [apply perm_skip, perm_swap|].
      apply perm_swap.
Defined.

(** ** The value of each category *)

Lemma evaluate_of_values (h : list Card) (vs : list Z) :
  valid_hand 5 h ->
  Permutation (map rank_value h) vs ->
  evaluate5CardHand h = hand_value_of (sort_by Z.gtb vs) (all_same_suit h) /\
  Forall (fun v => In v face_values) vs.
Proof.
  intros V HP. pose proof (valid_ranks 5 h V) as Hr. split.
  - rewrite (evaluate_factors h (proj1 V) Hr). now rewrite (sort_of_perm _ _ HP).
  - eapply Permutation_Forall; [exact HP|].
    apply Forall_map. eapply Forall_impl; [|exact Hr].
    intros c Hc. now apply face_values_complete, rank_value_range.
Qed.

Lemma gives_spec (l : list Z) (isFlush : bool) (expected : HandValue) :
  gives l isFlush expected = true ->
  hand_value_of (sort_by Z.gtb l) isFlush = Some expected.
Proof.
  unfold gives, value_eqb. destruct (hand_value_of _ _) as [v|]; [|discriminate].
  intros H. apply vector_eqb_spec in H. now subst.
Qed.

Lemma check_faces2_spec (P : Z -> Z -> bool) (a b : Z) :
  check_faces2 P = true -> In a face_values -> In b face_values ->
  P a b = true.
Proof.
  unfold check_faces2. intros H Ha Hb.
  rewrite forallb_forall in H. specialize (H a Ha).
  rewrite forallb_forall in H. exact (H b Hb).
Qed.

Lemma check_faces3_spec (P : Z -> Z -> Z -> bool) (a b c : Z) :
  check_faces3 P = true ->
  In a face_values -> In b face_values -> In c face_values ->
  P a b c = true.
Proof.
  unfold check_faces3. intros H Ha Hb Hc.
  rewrite forallb_forall in H. specialize (H a Ha).
  now apply check_faces2_spec.
Qed.

(** Two cards of one value keep a duplicate-free hand from being a flush. *)
Lemma pair_not_flush (h : list Card) (p : Z) (rest : list Z) :
  valid_hand 5 h ->
  Permutation (map rank_value h) (p :: p :: rest) ->
  all_same_suit h = false.
Proof.
  intros V HP.
  apply (repeated_value_not_flush h (proj1 (proj2 V)) (valid_ranks 5 h V)).
  intros Hnd. apply (Permutation_NoDup HP) in Hnd.
  inversion Hnd as [|? ? Hin _]; subst. apply Hin. now left.
Qed.

Lemma quads_agree_all : check_faces2 quads_agree = true.
Proof. vm_compute. reflexivity. Qed.

Lemma full_house_agrees_all : check_faces2 full_house_agrees = true.
Proof. vm_compute. reflexivity. Qed.

Lemma trips_agree_all : check_faces3 trips_agree = true.
Proof. vm_compute. reflexivity. Qed.

Lemma two_pair_agrees_all : check_faces3 two_pair_agrees = true.
Proof. vm_compute. reflexivity. Qed.

(** X4. Four cards of the value [q] and a fifth card of the value [k] are
    valued [8; q; k]. *)
Theorem four_of_a_kind_value (h : list Card) (q k : Z) :
  valid_hand 5 h ->
  Permutation (map rank_value h) [q; q; q; q; k] ->
  q <> k ->
  evaluate5CardHand h = Some [8; q; k].
Proof.
  intros V HP Hne. destruct (evaluate_of_values h _ V HP) as [-> Hf].
  inversion Hf as [|? ? Hq Hf1]; subst.
  do 3 (inversion Hf1 as [|? ? _ Hf2]; subst; clear Hf1; rename Hf2 into Hf1).
  inversion Hf1 as [|? ? Hk _]; subst.
  pose proof (check_faces2_spec quads_agree q k quads_agree_all Hq Hk) as H.
  unfold quads_agree in H.
  replace (q =? k) with false in H by (symmetry; now apply Z.eqb_neq).
  cbn [negb] in H. apply andb_prop in H as [Ht Hn].
  destruct (all_same_suit h); now apply gives_spec.
Qed.

Lemma four_of_a_kind_value_witness :
  evaluate5CardHand (hand "7h7d7c7sKd") = Some [8; 7; 13].
Proof.
  apply four_of_a_kind_value.
  - apply valid_handb_spec. reflexivity.
  - apply Permutation_refl.
  - discriminate.
Defined.

(** X5. Three cards of the value [t] and two cards of the value [p] are
    valued [7; t; p]. *)
Theorem full_house_value (h : list Card) (t p : Z) :
  valid_hand 5 h ->
  Permutation (map rank_value h) [t; t; t; p; p] ->
  t <> p ->
  evaluate5CardHand h = Some [7; t; p].
Proof.
  intros V HP Hne. destruct (evaluate_of_values h _ V HP) as [-> Hf].
  inversion Hf as [|? ? Ht Hf1]; subst.
  do 2 (inversion Hf1 as [|? ? _ Hf2]; subst; clear Hf1; rename Hf2 into Hf1).
  inversion Hf1 as [|? ? Hp _]; subst.
  pose proof (check_faces2_spec full_house_agrees t p full_house_agrees_all
                Ht Hp) as H.
  unfold full_house_agrees in H.
  replace (t =? p) with false in H by (symmetry; now apply Z.eqb_neq).
  cbn [negb] in H. apply andb_prop in H as [Hfl Hn].
  destruct (all_same_suit h); now apply gives_spec.
Qed.

Lemma full_house_value_witness :
  evaluate5CardHand (hand "5s2h5h2d2c") = Some [7; 2; 5].
Proof.
  apply (full_house_value (hand "5s2h5h2d2c") 2 5).
  - apply valid_handb_spec. reflexivity.
  - cbn. apply perm_trans with [2; 5; 5; 2; 2]; [apply perm_swap|].
    apply perm_skip.
    apply perm_trans with [5; 2; 5; 2]; [apply perm_skip, perm_swap|].
    apply perm_trans with [2; 5; 5; 2]; [apply perm_swap|].
    apply perm_skip.
    apply perm_trans with [5; 2; 5]; [apply perm_skip, perm_swap|].
    apply perm_swap.
  - discriminate.
Defined.

(** X6. Three cards of the value [t] and two cards of other, different
    values [k1 > k2], no card twice, are valued [4; t; k1; k2]. *)
Theorem three_of_a_kind_value (h : list Card) (t k1 k2 : Z) :
  valid_hand 5 h ->
  Permutation (map rank_value h) [t; t; t; k1; k2] ->
  k2 < k1 -> t <> k1 -> t <> k2 ->
  evaluate5CardHand h = Some [4; t; k1; k2].
Proof.
  intros V HP Hk N1 N2. destruct (evaluate_of_values h _ V HP) as [-> Hf].
  rewrite (pair_not_flush h t _ V HP).
  inversion Hf as [|? ? Ht Hf1]; subst.
  do 2 (inversion Hf1 as [|? ? _ Hf2]; subst; clear Hf1; rename Hf2 into Hf1).
  inversion Hf1 as [|? ? H1 Hf2]; subst.
  inversion Hf2 as [|? ? H2 _]; subst.
  pose proof (check_faces3_spec trips_agree t k1 k2 trips_agree_all Ht H1 H2)
    as H.
  unfold trips_agree in H.
  replace (k2 <? k1) with true in H by (symmetry; now apply Z.ltb_lt).
  replace (t =? k1) with false in H by (symmetry; now apply Z.eqb_neq).
  replace (t =? k2) with false in H by (symmetry; now apply Z.eqb_neq).
  now apply gives_spec.
Qed.

Lemma three_of_a_kind_value_witness :
  evaluate5CardHand (hand "AhAdAcKsQh") = Some [4; 14; 13; 12].
Proof.
  apply three_of_a_kind_value.
  - apply valid_handb_spec. reflexivity.
  - apply Permutation_refl.
  - lia.
  - discriminate.
  - discriminate.
Defined.

(** X7. Two cards of the value [p], two of a lower value [q] and a fifth
    card of another value [k], no card twice, are valued [3; p; q; k]. *)
Theorem two_pair_value (h : list Card) (p q k : Z) :
  valid_hand 5 h ->
  Permutation (map rank_value h) [p; p; q; q; k] ->
  q < p -> k <> p -> k <> q ->
  evaluate5CardHand h = Some [3; p; q; k].
Proof.
  intros V HP Hq N1 N2. destruct (evaluate_of_values h _ V HP) as [-> Hf].
  rewrite (pair_not_flush h p _ V HP).
  inversion Hf as [|? ? Hp Hf1]; subst.
  inversion Hf1 as [|? ? _ Hf2]; subst.
  inversion Hf2 as [|? ? Hq' Hf3]; subst.
  inversion Hf3 as [|? ? _ Hf4]; subst.
  inversion Hf4 as [|? ? Hk _]; subst.
  pose proof (check_faces3_spec two_pair_agrees p q k two_pair_agrees_all
                Hp Hq' Hk) as H.
  unfold two_pair_agrees in H.
  replace (q <? p) with true in H by (symmetry; now apply Z.ltb_lt).
  replace (k =? p) with false in H by (symmetry; now apply Z.eqb_neq).
  replace (k =? q) with false in H by (symmetry; now apply Z.eqb_neq).
  now apply gives_spec.
Qed.

Lemma two_pair_value_witness :
  evaluate5CardHand (hand "AhAdKcKsQh") = Some [3; 14; 13; 12].
Proof.
  apply two_pair_value.
  - apply valid_handb_spec. reflexivity.
  - apply Permutation_refl.
  - lia.
  - discriminate.
  - discriminate.
Defined.

Lemma straights_agree_all :
  forallb straight_agrees [2; 3; 4; 5; 6; 7; 8; 9; 10] = true.
Proof. vm_compute. reflexivity. Qed.

(** X8. Five cards of the consecutive values [low .. low + 4] are valued
    [5; low + 4], and [9; low + 4] when they share one suit. *)
Theorem straight_value (h : list Card) (low : Z) :
  valid_hand 5 h ->
  2 <= low <= 10 ->
  Permutation (map rank_value h) [low + 4; low + 3; low + 2; low + 1; low] ->
  evaluate5CardHand h
  = Some [if all_same_suit h then 9 else 5; low + 4].
Proof.
  intros V Hlow HP. destruct (evaluate_of_values h _ V HP) as [-> _].
  pose proof straights_agree_all as H. rewrite forallb_forall in H.
  specialize (H low). unfold straight_agrees in H. cbv zeta in H.
  apply andb_prop in H as [Hflush Hplain].
  - destruct (all_same_suit h); now apply gives_spec.
  - simpl. lia.
Qed.

Lemma straight_value_witness :
  evaluate5CardHand (hand "Th9h8h7h6d")
  = Some [if all_same_suit (hand "Th9h8h7h6d") then 9 else 5; 6 + 4].
Proof.
  apply straight_value.
  - apply valid_handb_spec. reflexivity.
  - lia.
  - apply Permutation_refl.
Defined.

(** X9. The ace, 2, 3, 4 and 5 of one suit are valued [9; 5]: a straight
    flush whose high card is the 5. *)
Theorem steel_wheel_value (h : list Card) :
  Permutation (map rank h) wheel_ranks ->
  all_same_suit h = true ->
  evaluate5CardHand h = Some [9; 5].
Proof.
  intros HP Hs.
  rewrite (evaluate_of_ranks h wheel_ranks eq_refl
             (ranks_valid wheel_ranks eq_refl) HP).
  now rewrite Hs.
Qed.

Lemma steel_wheel_value_witness :
  evaluate5CardHand (hand "3d5dAd2d4d") = Some [9; 5].
Proof.
  apply steel_wheel_value; [|reflexivity].
  cbn. unfold wheel_ranks.
  apply perm_trans with ["3"; "A"; "5"; "2"; "4"]%char;
    [apply perm_skip, perm_swap|].
  apply perm_trans with ["A"; "3"; "5"; "2"; "4"]%char; [apply perm_swap|].
  apply perm_skip.
  apply perm_trans with ["3"; "2"; "5"; "4"]%char;
    [apply perm_skip, perm_swap|].
  apply perm_trans with ["2"; "3"; "5"; "4"]%char; [apply perm_swap|].
  do 2 apply perm_skip. apply perm_swap.
Defined.

Lemma five_in_a_row_ext (occ occ' : Z -> nat) :
  (forall v, occ v = occ' v) -> five_in_a_row occ = five_in_a_row occ'.
Proof.
  intros H. unfold five_in_a_row, run_to, holds.
  cbn [existsb forallb]. now rewrite !H.
Qed.

Lemma strictly_descending_spec (l : list Z) :
  descending l -> NoDup l -> strictly_descending l = true.
Proof.
  unfold descending. induction 1 as [|x t Ht IH Hx]; intros Hnd; [reflexivity|].
  inversion Hnd as [|? ? Hin Hnd']; subst.
  destruct t as [|y t']; [reflexivity|].
  change (strictly_descending (x :: y :: t'))
    with ((y <? x) && strictly_descending (y :: t')).
  rewrite (IH Hnd'), andb_true_r.
  apply Z.ltb_lt. inversion Hx as [|? ? Hxy _]; subst.
  assert (x <> y) by (intros ->; apply Hin; now left). lia.
Qed.

Lemma no_pair_agrees_all : check_all no_pair_agrees = true.
Proof. vm_compute. reflexivity. Qed.

(** X10. Five cards of five different values that are not consecutive are
    valued by their values in non-increasing order, after the category 1,
    or 6 when they share one suit. *)
Theorem high_card_or_flush_value (h : list Card) :
  valid_hand 5 h ->
  NoDup (map rank_value h) ->
  five_in_a_row (occurrences (map rank_value h)) = false ->
  exists values,
    Permutation (map rank_value h) values /\ descending values /\
    evaluate5CardHand h = Some ((if all_same_suit h then 6 else 1) :: values).
Proof.
  intros V Hnd Hrow. pose proof (valid_ranks 5 h V) as Hr.
  exists (sort_by Z.gtb (map rank_value h)).
  split; [apply sort_by_perm|]. split; [apply sort_descending|].
  rewrite (evaluate_factors h (proj1 V) Hr).
  pose proof (check_all_sound no_pair_agrees no_pair_agrees_all _
                (all_same_suit h) (sorted_values_enumerated h (proj1 V) Hr))
    as H.
  unfold no_pair_agrees in H.
  rewrite strictly_descending_spec in H.
  - rewrite <- (five_in_a_row_ext _ _
                  (occurrences_perm _ _ (sort_by_perm Z.gtb (map rank_value h))))
      in H.
    rewrite Hrow in H. cbn [negb andb] in H. unfold value_eqb in H.
    destruct (hand_value_of _ _) as [v|]; [|discriminate].
    apply vector_eqb_spec in H. now subst.
  - apply sort_descending.
  - eapply Permutation_NoDup; [apply sort_by_perm | exact Hnd].
Qed.

Lemma high_card_or_flush_value_witness :
  exists values,
    Permutation (map rank_value (hand "Ah9h3h4h5d")) values /\
    descending values /\
    evaluate5CardHand (hand "Ah9h3h4h5d")
    = Some ((if all_same_suit (hand "Ah9h3h4h5d") then 6 else 1) :: values).
Proof.
  apply high_card_or_flush_value.
  - apply valid_handb_spec. reflexivity.
  - cbn. repeat (constructor; [cbn; intros H;
      repeat (destruct H as [H|H]; [discriminate H|]); exact H|]).
    constructor.
  - reflexivity.
Defined.

Lemma tiebreaks_agree_all : check_all tiebreaks_agree = true.
Proof. vm_compute. reflexivity. Qed.

(** X11. Every element that follows the category in the value of five
    valid cards is the face value of one of the five cards. *)
Theorem tiebreaks_from_hand (h : list Card) :
  valid_hand 5 h ->
  exists c t,
    evaluate5CardHand h = Some (c :: t) /\
    forall v, In v t -> exists card, In card h /\ rank_value card = v.
Proof.
  intros V. pose proof (valid_ranks 5 h V) as Hr.
  rewrite (evaluate_factors h (proj1 V) Hr).
  pose proof (check_all_sound tiebreaks_agree tiebreaks_agree_all _
                (all_same_suit h) (sorted_values_enumerated h (proj1 V) Hr))
    as H.
  unfold tiebreaks_agree in H.
  destruct (hand_value_of _ _) as [[|c t]|]; try discriminate.
  exists c, t. split; [reflexivity|].
  intros v Hv. rewrite forallb_forall in H. specialize (H v Hv).
  apply existsb_exists in H as (w & Hw & E). apply Z.eqb_eq in E. subst w.
  apply (Permutation_in _ (Permutation_sym (sort_by_perm Z.gtb _))) in Hw.
  apply in_map_iff in Hw as (card & E & Hcard). now exists card.
Qed.

Lemma tiebreaks_from_hand_witness :
  exists c t,
    evaluate5CardHand (hand "AhAdKcQsJh") = Some (c :: t) /\
    forall v, In v t ->
              exists card, In card (hand "AhAdKcQsJh") /\ rank_value card = v.
Proof.
  apply tiebreaks_from_hand. apply valid_handb_spec. reflexivity.
Defined.

(** ** The comparison of values *)

(** X12. [isBetterHand] is a strict total order on values: no value is
    better than itself, the relation is transitive, and of two different
    values exactly one is better than the other; the comparison used by the
    trials, [operator>] and [operator==], agrees with it. *)
Theorem isBetterHand_strict_total_order :
  (forall a, isBetterHand a a = false) /\
  (forall a b c,
      isBetterHand a b = true -> isBetterHand b c = true ->
      isBetterHand a c = true) /\
  (forall a b, isBetterHand a b = true -> isBetterHand b a = false) /\
  (forall a b, isBetterHand a b = true \/ a = b \/ isBetterHand b a = true) /\
  (forall a b, vector_gtb a b = isBetterHand a b) /\
  (forall a b, vector_eqb a b = true <->
               isBetterHand a b = false /\ isBetterHand b a = false).
Proof.
  assert (forall a, isBetterHand a a = false) as Hirr.
  { intros a. apply not_true_iff_false. rewrite isBetterHand_spec.
    apply lex_lt_irrefl. }
  assert (forall a b c,
             isBetterHand a b = true -> isBetterHand b c = true ->
             isBetterHand a c = true) as Htrans.
  { intros a b c. rewrite !isBetterHand_spec. intros Hab Hbc.
    eapply lex_lt_trans; eassumption. }
  assert (forall a b, isBetterHand a b = true -> isBetterHand b a = false)
    as Hasym.
  { intros a b Hab. apply not_true_iff_false. intros Hba.
    pose proof (Htrans a b a Hab Hba) as H. rewrite Hirr in H. discriminate H. }
  assert (forall a b, isBetterHand a b = true \/ a = b \/ isBetterHand b a = true)
    as Htotal.
  { intros a b. rewrite !isBetterHand_spec.
    destruct (lex_lt_total a b) as [H|[H|H]]; auto. }
  repeat split; try assumption; try reflexivity.
  - apply vector_eqb_spec in H. subst b. apply Hirr.
  - apply vector_eqb_spec in H. subst b. apply Hirr.
  - intros [Hab Hba]. apply vector_eqb_spec.
    destruct (Htotal a b) as [H|[H|H]]; congruence.
Qed.

(** ** The best hand and the order and number of the cards *)

Lemma best_of_seven (seven : list Card) :
  length seven = 7%nat ->
  Forall (fun c => In (rank c) RANKS) seven ->
  exists best,
    bestHandValue seven = Some best /\
    (exists five,
        In five (combs 5 seven) /\ evaluate5CardHand five = Some best) /\
    (forall five,
        In five (combs 5 seven) ->
        exists v, evaluate5CardHand five = Some v /\ ~ lex_lt best v).
Proof.
  intros Hlen Hr.
  pose (g := fun five => match evaluate5CardHand five with
                         | Some v => v
                         | None => []
                         end).
  assert (forall five, In five (combs 5 seven) ->
                       evaluate5CardHand five = Some (g five)) as Hg.
  { intros five Hin.
    destruct (combs_spec (fun c => In (rank c) RANKS) 5 seven five Hin)
      as (H5 & _ & Hv).
    destruct (evaluate_shape five H5 (Hv Hr)) as (c & t & E & _).
    unfold g. now rewrite E. }
  rewrite (bestHandValue_unrolled seven Hlen).
  rewrite (mapM_total evaluate5CardHand g) by (apply Forall_forall; exact Hg).
  cbn [bind].
  assert (length (combs 5 seven) = 21%nat) as H21.
  { destruct (seven_cards seven Hlen) as (a & b & c & d & e & f & h & ->).
    reflexivity. }
  destruct (combs 5 seven) as [|f1 rest1] eqn:Ecombs; [discriminate H21|].
  cbn [map].
  pose proof (fold_pick_better_first (g f1) (map g rest1)) as Hfold.
  cbn zeta in Hfold.
  set (best := bestVal (fold_left pick_better (g f1 :: map g rest1) _)) in *.
  destruct Hfold as (Hin & Hmax).
  exists best. split; [reflexivity|]. split.
  - change (g f1 :: map g rest1) with (map g (f1 :: rest1)) in Hin.
    apply in_map_iff in Hin as (five & E & Hfive).
    exists five. split; [exact Hfive|]. rewrite <- E. now apply Hg.
  - intros five Hfive. exists (g five). split; [now apply Hg|].
    apply Hmax. change (g f1 :: map g rest1) with (map g (f1 :: rest1)).
    now apply in_map.
Qed.

Lemma combs_cons_in {A : Type} (k : nat) (a : A) (t s : list A) :
  In s (combs k t) -> In s (combs k (a :: t)).
Proof.
  destruct k as [|k]; [now rewrite !combs_0|].
  intros H. cbn [combs]. apply in_or_app. now right.
Qed.

Lemma combs_cons_iff {A : Type} (k : nat) (a : A) (t s : list A) :
  In s (combs (S k) (a :: t)) <->
  (exists s0, s = a :: s0 /\ In s0 (combs k t)) \/ In s (combs (S k) t).
Proof.
  cbn [combs]. rewrite in_app_iff, in_map_iff. split.
  - intros [(s0 & <- & H)|H]; [left; now exists s0 | now right].
  - intros [(s0 & -> & H)|H]; [left; now exists s0 | now right].
Qed.

(** The sublists of a permuted list are the sublists of the list, permuted. *)
Lemma combs_perm {A : Type} (l l' : list A) :
  Permutation l l' ->
  forall (k : nat) (s : list A),
    In s (combs k l) -> exists s', In s' (combs k l') /\ Permutation s s'.
Proof.
  induction 1 as [|x t t' HP IH|x y t|l1 l2 l3 _ IH1 _ IH2]; intros k s Hs.
  - exists s. split; [exact Hs | reflexivity].
  - destruct k as [|k].
    + rewrite combs_0 in *. exists s. split; [exact Hs | reflexivity].
    + apply combs_cons_iff in Hs as [(s0 & -> & Hs0)|Hs].
      * destruct (IH k s0 Hs0) as (s0' & Hin & Hp).
        exists (x :: s0'). split; [|now constructor].
        apply combs_cons_iff. left. now exists s0'.
      * destruct (IH (S k) s Hs) as (s' & Hin & Hp).
        exists s'. split; [|exact Hp]. apply combs_cons_iff. now right.
  - destruct k as [|k].
    + rewrite combs_0 in *. exists s. split; [exact Hs | reflexivity].
    + apply combs_cons_iff in Hs as [(s0 & -> & Hs0)|Hs].
      * destruct k as [|k].
        -- rewrite combs_0 in Hs0. destruct Hs0 as [<-|[]].
           exists [y]. split; [|reflexivity].
           apply combs_cons_iff. right. apply combs_cons_iff. left.
           exists []. split; [reflexivity | rewrite combs_0; now left].
        -- apply combs_cons_iff in Hs0 as [(s1 & -> & Hs1)|Hs0].
           ++ exists (x :: y :: s1). split; [|apply perm_swap].
              apply combs_cons_iff. left. exists (y :: s1).
              split; [reflexivity|]. apply combs_cons_iff. left. now exists s1.
           ++ exists (y :: s0). split; [|reflexivity].
              apply combs_cons_iff. right. apply combs_cons_iff. left.
              now exists s0.
      * apply combs_cons_iff in Hs as [(s0 & -> & Hs0)|Hs].
        -- exists (x :: s0). split; [|reflexivity].
           apply combs_cons_iff. left. exists s0.
           split; [reflexivity | now apply combs_cons_in].
        -- exists s. split; [|reflexivity].
           apply combs_cons_iff. right. now apply combs_cons_in.
  - destruct (IH1 k s Hs) as (s' & Hin & Hp).
    destruct (IH2 k s' Hin) as (s'' & Hin' & Hp').
    exists s''. split; [exact Hin' | now transitivity s'].
Qed.

(** X13. The best value of seven valid cards does not depend on the order
    in which the cards are given. *)
Theorem bestHandValue_order_independent (seven seven' : list Card) :
  length seven = 7%nat ->
  Forall (fun c => In (rank c) RANKS) seven ->
  Permutation seven seven' ->
  bestHandValue seven = bestHandValue seven'.
Proof.
  intros Hlen Hr HP.
  assert (length seven' = 7%nat) as Hlen'
      by now rewrite <- (Permutation_length HP).
  assert (Forall (fun c => In (rank c) RANKS) seven') as Hr'
      by (eapply Permutation_Forall; eassumption).
  destruct (best_of_seven seven Hlen Hr) as (b & -> & (f & Hf & Ef) & Hmax).
  destruct (best_of_seven seven' Hlen' Hr') as (b' & -> & (f' & Hf' & Ef') & Hmax').
  f_equal.
  assert (~ lex_lt b' b) as H1.
  { destruct (combs_perm seven seven' HP 5 f Hf) as (s & Hs & Hp).
    destruct (Hmax' s Hs) as (v & Ev & Hv).
    destruct (combs_spec (fun c => In (rank c) RANKS) 5 seven f Hf)
      as (H5 & _ & Hvalid).
    rewrite <- (evaluate_perm f s Hp H5 (Hvalid Hr)), Ef in Ev.
    now injection Ev as <-. }
  assert (~ lex_lt b b') as H2.
  { destruct (combs_perm seven' seven (Permutation_sym HP) 5 f' Hf')
      as (s & Hs & Hp).
    destruct (Hmax s Hs) as (v & Ev & Hv).
    destruct (combs_spec (fun c => In (rank c) RANKS) 5 seven' f' Hf')
      as (H5 & _ & Hvalid).
    rewrite <- (evaluate_perm f' s Hp H5 (Hvalid Hr')), Ef' in Ev.
    now injection Ev as <-. }
  destruct (lex_lt_total b b') as [H|[H|H]]; tauto.
Qed.

Lemma bestHandValue_order_independent_witness :
  bestHandValue (hand "Ah2d3c4s5h9dTd") = bestHandValue (hand "Td9d5h4s3c2dAh").
Proof.
  apply bestHandValue_order_independent.
  - reflexivity.
  - apply (valid_ranks 7), valid_handb_spec. reflexivity.
  - apply (Permutation_rev (hand "Ah2d3c4s5h9dTd")).
Defined.

(** X14. The category of the best value of seven distinct valid cards is
    at least the poker category of any five of them: when five of the seven
    cards form a straight flush, the best value begins with 9. *)
Theorem best_category_bound (seven five : list Card) :
  valid_hand 7 seven ->
  NoDup five -> incl five seven -> length five = 5%nat ->
  exists c t,
    bestHandValue seven = Some (c :: t) /\
    category_number (poker_category five) <= c <= 9.
Proof.
  intros V Hnd Hincl H5. pose proof (valid_ranks 7 seven V) as Hr.
  destruct (best_of_seven seven (proj1 V) Hr) as (b & Eb & (f & Hf & Ef) & Hmax).
  destruct (combs_spec (fun c => In (rank c) RANKS) 5 seven f Hf)
    as (Hf5 & _ & Hfv).
  destruct (evaluate_shape f Hf5 (Hfv Hr)) as (c & t & Ec & Hc & _).
  rewrite Ef in Ec. injection Ec as ->.
  exists c, t. split; [exact Eb|]. split; [|lia].
  destruct (subset_in_combs seven five Hnd Hincl) as (s & Hs & Hp).
  rewrite H5 in Hs. destruct (Hmax s Hs) as (v & Ev & Hv).
  assert (Forall (fun c => In (rank c) RANKS) five) as Hfive.
  { rewrite Forall_forall in *. intros x Hx. now apply Hr, Hincl. }
  rewrite <- (evaluate_perm five s Hp H5 Hfive) in Ev.
  destruct (evaluate_category five H5 Hfive) as (t5 & E5).
  rewrite E5 in Ev. injection Ev as <-.
  destruct (Z_lt_le_dec c (category_number (poker_category five))) as [Hlt|Hle];
    [|exact Hle].
  destruct Hv. now constructor.
Qed.

Lemma best_category_bound_witness :
  exists c t,
    bestHandValue (hand "AcAd9hThJhQhKh") = Some (c :: t) /\
    category_number (poker_category (hand "9hThJhQhKh")) <= c <= 9.
Proof.
  apply best_category_bound.
  - apply valid_handb_spec. reflexivity.
  - apply nodupb_spec. reflexivity.
  - intros c Hc. cbn in Hc. cbn. tauto.
  - reflexivity.
Defined.

(** X15. [bestHandValue] reads the first seven cards only: cards that
    follow them do not change the result. *)
Theorem bestHandValue_first_seven (seven more : list Card) :
  length seven = 7%nat ->
  bestHandValue (seven ++ more) = bestHandValue seven.
Proof.
  intros H. destruct (seven_cards seven H) as (a & b & c & d & e & f & g & ->).
  unfold bestHandValue. rewrite !loops5_unrolled.
  cbv [index_combinations combs seq map app apply5 best_step nth_error bind].
  reflexivity.
Qed.

Lemma bestHandValue_first_seven_witness :
  bestHandValue (hand "Ah2d3c4s5h9dTd" ++ hand "AcAdAs")
  = bestHandValue (hand "Ah2d3c4s5h9dTd").
Proof.
  apply bestHandValue_first_seven. reflexivity.
Defined.

(** ** The deck, for every exclusion list *)

(** X16. The deck is the full deck of 52 cards, in its order, without the
    excluded cards: the order of the remaining cards is kept, and the deck
    depends only on which cards are excluded, not on their order or number
    of occurrences in the exclusion list. *)
Theorem buildDeck_removes (exclude : list Card) :
  length (buildDeck []) = 52%nat /\
  buildDeck exclude
  = filter (fun c => negb (existsb (fun e => card_eqb e c) exclude))
      (buildDeck []) /\
  (forall exclude',
      (forall c, In c exclude <-> In c exclude') ->
      buildDeck exclude' = buildDeck exclude).
Proof.
  split; [reflexivity|]. split; [apply buildDeck_filter|].
  intros exclude' Hsame. rewrite !buildDeck_filter.
  apply filter_ext. intros c. apply eq_true_iff_eq.
  now rewrite !not_excluded_iff, Hsame.
Qed.

(** X17. Excluding [n] different cards of the 52 leaves a deck of [52 - n]
    cards. *)
Theorem deck_size (exclude : list Card) :
  NoDup exclude -> Forall valid_card exclude ->
  length (buildDeck exclude) = (52 - length exclude)%nat.
Proof. apply buildDeck_length. Qed.

Lemma deck_size_witness :
  length (buildDeck (hand "AhKh2c7d9s"))
  = (52 - length (hand "AhKh2c7d9s"))%nat.
Proof.
  apply deck_size.
  - apply nodupb_spec. reflexivity.
  - apply (proj2 (proj2 (valid_handb_spec 5 (hand "AhKh2c7d9s") eq_refl))).
Defined.

(** ** Runs that end without an equity *)

(** X18. Without trials ([simulations <= 0]) the loop is not entered and
    [simulate] returns the NaN of [0.0 / 0.0], whatever the hero hand is. *)
Theorem simulate_without_trials {Gen : Type}
    (shuffle : Gen -> list Card -> list Card * Gen) (round : Q -> Q)
    (sim : EquitySimulator) (seed : Gen) :
  simulations sim <= 0 ->
  simulate shuffle round sim seed = Some NaN.
Proof.
  intros H. unfold simulate.
  replace (Z.to_nat (simulations sim)) with 0%nat by lia. reflexivity.
Qed.

Lemma simulate_without_trials_witness :
  simulate cut_shuffle round_to_grid (newEquitySimulator "XYo" 0) 0%nat
  = Some NaN.
Proof.
  apply simulate_without_trials. cbn. lia.
Defined.

Section Failures.
Context {Gen : Type}.
Variable shuffle : Gen -> list Card -> list Card * Gen.
Variable round : Q -> Q.
Hypothesis shuffle_perm :
  forall (g : Gen) (l : list Card), Permutation l (fst (shuffle g l)).

Lemma trial_unknown_rank (hero deck : list Card) (t : Tally) :
  length hero = 2%nat ->
  Exists (fun c => ~ In (rank c) RANKS) hero ->
  Permutation (buildDeck hero) deck ->
  trial hero deck t = None.
Proof.
  intros Hlen Hbad HP.
  destruct (deal_shape deck (shuffled_length hero deck Hlen HP))
    as (d0 & d1 & b0 & b1 & b2 & b3 & b4 & rest & _ & Hdeal).
  unfold trial. rewrite Hdeal. cbn [bind fst snd].
  destruct hero as [|c1 [|c2 [|c3 hero]]]; try discriminate Hlen.
  rewrite (bestHandValue_unrolled ([c1; c2] ++ [b0; b1; b2; b3; b4]) eq_refl).
  cbn [app combs map mapM].
  rewrite (evaluate_unknown_rank [c1; c2; b0; b1; b2]); [reflexivity|].
  apply Exists_exists in Hbad as (c & Hc & Hr).
  apply Exists_exists. exists c. split; [|exact Hr].
  destruct Hc as [<-|[<-|[]]]; cbn; tauto.
Qed.

(** X19. When one of the two hero cards carries a character that is no
    rank, every run of at least one trial ends with the exception of the
    rank table, in the first trial. *)
Theorem simulate_unknown_rank (sim : EquitySimulator) (seed : Gen) :
  length (heroHand sim) = 2%nat ->
  Exists (fun c => ~ In (rank c) RANKS) (heroHand sim) ->
  1 <= simulations sim ->
  simulate shuffle round sim seed = None.
Proof.
  intros Hlen Hbad HN. unfold simulate.
  destruct (Z.to_nat (simulations sim)) as [|n] eqn:E; [lia|].
  cbn [trials]. now rewrite trial_unknown_rank.
Qed.
End Failures.

Lemma simulate_unknown_rank_witness :
  simulate cut_shuffle round_to_grid (newEquitySimulator "XYo" 25000) 0%nat
  = None.
Proof.
  apply (simulate_unknown_rank cut_shuffle round_to_grid cut_shuffle_perm).
  - reflexivity.
  - apply Exists_cons_hd. cbn. intros H.
    repeat (destruct H as [H|H]; [discriminate H|]). exact H.
  - cbn. lia.
Defined.

(** ** The runs of [main] *)

Lemma testHands_valid :
  forallb (fun s => valid_handb 2 (parseHand s)) testHands = true.
Proof. vm_compute. reflexivity. Qed.

Section MainRuns.
Context {Gen : Type}.
Variable shuffle : Gen -> list Card -> list Card * Gen.
Variable round : Q -> Q.
Hypothesis shuffle_perm :
  forall (g : Gen) (l : list Card), Permutation l (fst (shuffle g l)).
Hypothesis round_monotone :
  forall a b : Q, (a <= b)%Q -> (round a <= round b)%Q.
Hypothesis round_exact :
  forall k : Z, - 2 ^ 53 <= k <= 2 ^ 53 -> (round (k # 2) == k # 2)%Q.

(** Rounding keeps a number between two integers between them. *)
Lemma round_between (q : Q) (lo hi : Z) :
  - 2 ^ 52 <= lo -> hi <= 2 ^ 52 ->
  (inject_Z lo <= q)%Q -> (q <= inject_Z hi)%Q ->
  (inject_Z lo <= round q)%Q /\ (round q <= inject_Z hi)%Q.
Proof.
  intros Hlo Hhi Hl Hh.
  assert (lo <= hi) as Hle.
  { rewrite Zle_Qle. eapply Qle_trans; eassumption. }
  assert (forall k, inject_Z k == (2 * k) # 2)%Q as Hhalf.
  { intros k. unfold Qeq, inject_Z. cbn [Qnum Qden]. lia. }
  split.
  - apply Qle_trans with (round ((2 * lo) # 2)).
    + rewrite round_exact by lia. rewrite <- Hhalf. apply Qle_refl.
    + apply round_monotone. now rewrite <- Hhalf.
  - apply Qle_trans with (round ((2 * hi) # 2)).
    + apply round_monotone. now rewrite <- Hhalf.
    + rewrite round_exact by lia. rewrite <- Hhalf. apply Qle_refl.
Qed.

Lemma simulate_bounded (sim : EquitySimulator) (seed : Gen) :
  valid_hand 2 (heroHand sim) ->
  1 <= simulations sim <= INT_MAX ->
  exists d, simulate shuffle round sim seed = Some d /\ in_unit_interval d.
Proof.
  intros V HN.
  destruct (simulate_spec shuffle round shuffle_perm round_monotone round_exact
              sim seed V HN) as (outcomes & equity & _ & Htotal & Hsim & Heq).
  exists (Finite equity). split; [exact Hsim|].
  destruct (equity_bounds outcomes (simulations sim)) as [H0 H1];
    [lia | exact Htotal |].
  cbn [in_unit_interval]. rewrite Heq.
  apply (round_between _ 0 1); try assumption; cbn; lia.
Qed.

(** The loop keeps the sum of [k] results between 0 and [k]. *)
Lemma runs_spec (hand : string) (seeds : nat -> Gen) (n : nat) :
  valid_hand 2 (parseHand hand) ->
  forall (i : nat) (k : Z) (results : list double) (x : Q),
    0 <= k -> k + Z.of_nat n <= 2 ^ 52 ->
    (0 <= x)%Q -> (x <= inject_Z k)%Q ->
    exists new x',
      runs shuffle round n hand seeds i results (Finite x)
      = Some (results ++ new, Finite x') /\
      length new = n /\ Forall in_unit_interval new /\
      (0 <= x')%Q /\ (x' <= inject_Z (k + Z.of_nat n))%Q.
Proof.
  intros V. induction n as [|n IH]; intros i k results x Hk Hn H0 H1.
  - exists [], x. rewrite app_nil_r, Z.add_0_r.
    repeat split; [constructor | assumption | assumption].
  - cbn [runs].
    destruct (simulate_bounded (newEquitySimulator hand simsPerRun) (seeds i))
      as (d & -> & Hd); [exact V | cbv; split; discriminate |].
    cbn [bind]. destruct d as [q|]; [|destruct Hd]. destruct Hd as [Hq0 Hq1].
    cbn [double_accumulate]. unfold double_add.
    destruct (round_between (x + q) 0 (k + 1)) as [Hs0 Hs1]; try lia.
    { setoid_replace (inject_Z 0) with (0 + 0)%Q by reflexivity.
      now apply Qplus_le_compat. }
    { rewrite inject_Z_plus. now apply Qplus_le_compat. }
    destruct (IH (S i) (k + 1) (results ++ [Finite q]) (round (x + q)))
      as (new & x' & Hrun & Hlen & Hall & Hx0 & Hx1); try lia; try assumption.
    exists (Finite q :: new), x'. rewrite Hrun, <- app_assoc.
    split; [reflexivity|]. split; [cbn; now rewrite Hlen|].
    split; [constructor; [now split | exact Hall]|].
    split; [exact Hx0|].
    now replace (k + Z.of_nat (S n)) with (k + 1 + Z.of_nat n) by lia.
Qed.

(** X20. For every hand string that parses to two valid, different cards,
    and so for each of the 25 hands of [main], the ten runs of 25000 trials
    all return an equity between 0 and 1, no run throws, and the average
    that [main] reports lies between 0 and 1 as well. *)
Theorem main_average_in_unit_interval :
  Forall (fun hand => valid_hand 2 (parseHand hand)) testHands /\
  forall (hand : string) (seeds : nat -> Gen),
    valid_hand 2 (parseHand hand) ->
    exists runResults avgEquity,
      hand_results shuffle round hand seeds = Some (runResults, avgEquity) /\
      length runResults = 10%nat /\
      Forall in_unit_interval runResults /\
      in_unit_interval avgEquity.
Proof.
  split.
  - apply Forall_forall. intros hand Hin. apply valid_handb_spec.
    pose proof testHands_valid as H. rewrite forallb_forall in H. now apply H.
  - intros hand seeds V. unfold hand_results.
    destruct (runs_spec hand seeds (Z.to_nat numRuns) V 0%nat 0 [] 0%Q)
      as (new & x & -> & Hlen & Hall & Hx0 & Hx1);
      try (cbv; discriminate); try apply Qle_refl.
    cbn [bind fst snd app]. exists new. eexists.
    split; [reflexivity|]. split; [exact Hlen|]. split; [exact Hall|].
    cbn [double_average in_unit_interval]. unfold double_div, double_of_int.
    apply (round_between _ 0 1); try (cbv; discriminate).
    + apply Qle_shift_div_l; [reflexivity|].
      now rewrite Qmult_0_l.
    + apply Qle_shift_div_r; [reflexivity|].
      now rewrite Qmult_1_l.
Qed.
End MainRuns.

Lemma main_average_in_unit_interval_witness :
  Forall (fun hand => valid_hand 2 (parseHand hand)) testHands /\
  forall (hand : string) (seeds : nat -> nat),
    valid_hand 2 (parseHand hand) ->
    exists runResults avgEquity,
      hand_results cut_shuffle round_to_grid hand seeds
      = Some (runResults, avgEquity) /\
      length runResults = 10%nat /\
      Forall in_unit_interval runResults /\
      in_unit_interval avgEquity.
Proof.
  exact (main_average_in_unit_interval cut_shuffle round_to_grid
           cut_shuffle_perm round_to_grid_monotone round_to_grid_exact).
Defined.
